(** * generate_ico.py: building phraims.ico from phraims.iconset

    A shallow embedding of [src/generate_ico.py].  The script is a single
    procedure, [main], that talks to the file system ([os.path], [os.makedirs]),
    to the standard streams ([print]) and to Pillow ([Image.open],
    [Image.resize], [Image.save]).  It is modelled in a monad [Py] that threads
    the file system [fs] (the directories, the regular files with their
    contents), stops at [sys.exit] or at an uncaught exception, and records
    every effect performed, in order, in a [trace].

    Pillow is an interface ([Pillow]): its decoder and its ICO encoder are
    parameters of the development, so every statement holds for any Pillow.
    Failures the script cannot see coming (a file that is there but is no
    image or does not decode, a path taken by a directory, an encoder that
    raises) end the run with an exception, as they do in Python. *)

From Stdlib Require Import ZArith Ascii String.
From stdpp Require Import gmap strings list fin_maps pretty sorting gmultiset.

Local Open Scope Z_scope.

(** ** Images as Pillow hands them to the script *)

(** [img.size] is a pair (width, height) of Python integers. *)
Definition dims : Type := Z * Z.

(** The resampling filters of Pillow; the script only ever names [LANCZOS]. *)
Inductive resampling :=
  NEAREST | BOX | BILINEAR | HAMMING | BICUBIC | LANCZOS.

(** An image object is either the result of [Image.open] on a file with the
    given contents, or the result of [resize] on another image. *)
Inductive image :=
| Opened (data : list Byte.byte) (sz : dims)
| Resized (src : image) (sz : dims) (resample : resampling).

Definition img_size (img : image) : dims :=
  match img with
  | Opened _ sz => sz
  | Resized _ sz _ => sz
  end.

(** The key of line 70: [img.size[0] * img.size[1]]. *)
Definition pixel_area (img : image) : Z := (img_size img).1 * (img_size img).2.

(** The 48x48 image line 53 makes from [img]. *)
Definition resized_48 (img : image) : image := Resized img (48, 48) LANCZOS.

(** The arguments of the [save] call of lines 72-77: the image [save] is called
    on, [sizes=] and [append_images=]. *)
Record ico_request := IcoRequest {
  primary : image;
  sizes : list dims;
  append_images : option (list image);
}.

(** Every image handed to the encoder, the primary one first. *)
Definition written_images (req : ico_request) : list image :=
  primary req :: default [] (append_images req).

(** ** The file system and the effects of a run *)

Inductive stream := stdout | stderr.

Inductive event :=
| Print (s : stream) (text : string)
| ImageOpen (path : string) (opened : option image)
| ImageResize (src : image) (sz : dims) (resample : resampling) (ok : bool)
| Makedirs (path : string) (ok : bool)
| ImageSave (path : string) (req : ico_request) (ok : bool).

(** Paths are compared as written; a path names a directory, a regular file
    with its contents, or nothing. *)
Record fs := Fs {
  dirs : gset string;
  files : gmap string (list Byte.byte);
}.

(** ** Python control flow: normal return, [sys.exit], uncaught exception *)

Inductive exn :=
| FileNotFoundError
| IsADirectoryError
| FileExistsError
| UnidentifiedImageError
| IndexError
| EncoderError
| OSError
| DecompressionBombError
| TypeError.

Inductive result (A : Type) :=
| Ret (a : A)
| SysExit (code : Z)
| Raise (e : exn).
Arguments Ret {A} a.
Arguments SysExit {A} code.
Arguments Raise {A} e.

(** What a computation leaves behind: how it ended, the file system after it,
    and the effects it performed, in order. *)
Record run (A : Type) := Run {
  outcome : result A;
  final : fs;
  trace : list event;
}.
Arguments Run {A} outcome final trace.
Arguments outcome {A} r.
Arguments final {A} r.
Arguments trace {A} r.

Definition Py (A : Type) : Type := fs → run A.

Definition ret {A} (a : A) : Py A := λ s, Run (Ret a) s [].

Definition bind {A B} (m : Py A) (k : A → Py B) : Py B := λ s,
  let r := m s in
  match outcome r with
  | Ret a =>
      let r' := k a (final r) in
      Run (outcome r') (final r') (trace r ++ trace r')
  | SysExit c => Run (SysExit c) (final r) (trace r)
  | Raise e => Run (Raise e) (final r) (trace r)
  end.

Declare Scope py_scope.
Delimit Scope py_scope with py.
Notation "'let!' x ':=' m 'in' k" := (bind m (λ x, k))
  (at level 10, x name, m at level 100, k at level 200) : py_scope.
Notation "m '>>' k" := (bind m (λ _, k))
  (at level 90, right associativity) : py_scope.

(** The status the operating system sees: 0 on normal return, the argument of
    [sys.exit], and 1 when the interpreter dies on an uncaught exception. *)
Definition exit_status {A} (r : result A) : Z :=
  match r with
  | Ret _ => 0
  | SysExit c => c
  | Raise _ => 1
  end.

(** ** The primitives the script calls *)

Definition print (st : stream) (text : string) : Py unit := λ s,
  Run (Ret tt) s [Print st text].

Definition sys_exit {A} (code : Z) : Py A := λ s, Run (SysExit code) s [].

Definition raise {A} (e : exn) : Py A := λ s, Run (Raise e) s [].

Definition isdir (s : fs) (path : string) : bool :=
  bool_decide (path ∈ dirs s).

Definition exists_path (s : fs) (path : string) : bool :=
  bool_decide (path ∈ dirs s) || bool_decide (is_Some (files s !! path)).

Definition os_path_isdir (path : string) : Py bool := λ s,
  Run (Ret (isdir s path)) s [].

Definition os_path_exists (path : string) : Py bool := λ s,
  Run (Ret (exists_path s path)) s [].

(** [os.path.join] of a directory name and a relative file name. *)
Definition os_path_join (dir file : string) : string := dir +:+ "/" +:+ file.

(** [os.makedirs(path, exist_ok=True)] for a one-component path: nothing to do
    when the directory is there, [FileExistsError] when the name is taken by a
    regular file, otherwise the directory is created. *)
Definition os_makedirs (path : string) : Py unit := λ s,
  if bool_decide (path ∈ dirs s) then Run (Ret tt) s [Makedirs path true]
  else if bool_decide (is_Some (files s !! path))
  then Run (Raise FileExistsError) s [Makedirs path false]
  else Run (Ret tt) (Fs ({[path]} ∪ dirs s) (files s)) [Makedirs path true].

Definition os_path_getsize (path : string) : Py Z := λ s,
  match files s !! path with
  | Some data => Run (Ret (Z.of_nat (length data))) s []
  | None => Run (Raise FileNotFoundError) s []
  end.

(** Pillow itself is not part of the repository.  What the script relies on is
    taken as an interface:
    - [image_header]: the dimensions [Image.open] reads from a file, when it
      returns an image for it;
    - [open_exception]: what [Image.open] raises for contents it returns no
      image for ([UnidentifiedImageError], [DecompressionBombError], ...);
    - [load_exception]: [Image.open] is lazy, the pixel data is decoded when
      the image is first used; this is the exception the decoding raises, if
      any (an [OSError] for a truncated file, ...);
    - [ico_encode]: the bytes the ICO writer produces for a request, or that
      it raises;
    - [save_residue]: [save] opens the output for writing before it encodes;
      when the writer raises, this is what is left at the output path, given
      whether a file was there before (its truncated or partial contents, or
      nothing when [save] removes the file it created);
    - [has_Resampling]: whether the installed version has
      [Image.Resampling]. *)
Class Pillow := {
  image_header : list Byte.byte → option dims;
  open_exception : list Byte.byte → exn;
  load_exception : list Byte.byte → option exn;
  ico_encode : ico_request → option (list Byte.byte);
  save_residue : ico_request → bool → option (list Byte.byte);
  has_Resampling : bool;
}.

Section primitives.
Context `{Pillow}.

(** The image [Image.open] returns for a path, when it returns one: the
    path must be a regular file whose contents Pillow identifies. *)
Definition image_at (s : fs) (path : string) : option image :=
  if bool_decide (path ∈ dirs s) then None
  else data ← files s !! path; sz ← image_header data; Some (Opened data sz).

(** What [Image.open] raises when it returns no image. *)
Definition open_error (s : fs) (path : string) : exn :=
  if bool_decide (path ∈ dirs s) then IsADirectoryError
  else match files s !! path with
       | Some data => open_exception data
       | None => FileNotFoundError
       end.

(** What using the pixels of an image raises, if anything: an image fresh
    from [Image.open] still has to be decoded, a resized one is in memory. *)
Definition load_error (img : image) : option exn :=
  match img with
  | Opened data _ => load_exception data
  | Resized _ _ _ => None
  end.

(** [Image.open(path)] *)
Definition Image_open (path : string) : Py image := λ s,
  match image_at s path with
  | Some img => Run (Ret img) s [ImageOpen path (Some img)]
  | None => Run (Raise (open_error s path)) s [ImageOpen path None]
  end.

(** [img.resize(sz, resample)]: the source is decoded first. *)
Definition Image_resize (img : image) (sz : dims) (resample : resampling)
  : Py image := λ s,
  match load_error img with
  | None =>
      Run (Ret (Resized img sz resample)) s [ImageResize img sz resample true]
  | Some e => Run (Raise e) s [ImageResize img sz resample false]
  end.

(** The files after a [save] to [path] in which the writer raised. *)
Definition after_failed_save (req : ico_request) (path : string)
    (fl : gmap string (list Byte.byte)) : gmap string (list Byte.byte) :=
  match save_residue req (bool_decide (is_Some (fl !! path))) with
  | Some partial => <[path := partial]> fl
  | None => delete path fl
  end.

(** [im.save(path, format='ICO', sizes=..., append_images=...)]: a path that
    is a directory cannot be opened for writing; otherwise the file is
    opened, and holds what the ICO writer produced when the writer returns,
    and what [save_residue] says when it raises. *)
Definition Image_save (im : image) (path : string) (szs : list dims)
    (append : option (list image)) : Py unit := λ s,
  let req := IcoRequest im szs append in
  if bool_decide (path ∈ dirs s)
  then Run (Raise IsADirectoryError) s [ImageSave path req false]
  else match ico_encode req with
       | Some bytes =>
           Run (Ret tt) (Fs (dirs s) (<[path := bytes]> (files s)))
               [ImageSave path req true]
       | None =>
           Run (Raise EncoderError)
               (Fs (dirs s) (after_failed_save req path (files s)))
               [ImageSave path req false]
       end.
End primitives.

(** ** Python list operations used by the script *)

(** [l.insert(i, x)] for a non-negative [i]: an index past the end appends. *)
Definition list_insert_at {A} (i : nat) (x : A) (l : list A) : list A :=
  take i l ++ x :: drop i l.

(** [sorted(l, key=key, reverse=True)]: a stable sort into descending key
    order (elements with equal keys keep their original relative order). *)
Section sorted.
Context {A : Type} (key : A → Z).

Fixpoint insert_desc (x : A) (l : list A) : list A :=
  match l with
  | [] => [x]
  | y :: l' => if key y <=? key x then x :: l else y :: insert_desc x l'
  end.

Definition sorted_reverse (l : list A) : list A := foldr insert_desc [] l.
End sorted.

(** ** The script *)

Definition iconset_dir : string := "phraims.iconset".
Definition output_ico : string := "resources/phraims.ico".

Definition png_files : list string :=
  [ "icon_16x16.png";
    "icon_32x32.png";
    "icon_32x32@2x.png";
    "icon_128x128.png";
    "icon_256x256.png" ].

Definition in_iconset (name : string) : string := os_path_join iconset_dir name.

Definition newline : string := String "010"%char "".

Definition show_dims (sz : dims) : string := pretty sz.1 +:+ "x" +:+ pretty sz.2.

Section script.
Context `{Pillow}.
Local Open Scope py_scope.

(** Lines 34-41: one iteration of the loop over [png_files]. *)
Definition collect_one (images : list image) (png_file : string)
  : Py (list image) :=
  let png_path := os_path_join iconset_dir png_file in
  let! present := os_path_exists png_path in
  if present then
    let! img := Image_open png_path in
    let images := images ++ [img] in
    print stdout ("Added " +:+ png_file +:+ " (" +:+ show_dims (img_size img) +:+ ")") >>
    ret images
  else
    print stderr ("Warning: " +:+ png_file +:+ " not found") >>
    ret images.

(** Lines 32-41: the loop. *)
Fixpoint collect (names : list string) (images : list image)
  : Py (list image) :=
  match names with
  | [] => ret images
  | png_file :: rest =>
      let! images := collect_one images png_file in
      collect rest images
  end.

(** Lines 49-52: both spellings name the same filter. *)
Definition lanczos : resampling :=
  if has_Resampling then LANCZOS else LANCZOS.

(** Lines 43-55: the 48x48 entry made from the 256x256 file. *)
Definition generate_48 (images : list image) : Py (list image) :=
  let icon_256_path := os_path_join iconset_dir "icon_256x256.png" in
  let! present := os_path_exists icon_256_path in
  if present then
    let! img_256 := Image_open icon_256_path in
    let resample := lanczos in
    let! img_48 := Image_resize img_256 (48, 48) resample in
    let images := list_insert_at 2 img_48 images in
    print stdout "Generated 48x48 from 256x256" >>
    ret images
  else ret images.

(** Lines 66-77: what is handed to [save].  [images_sorted[0]] raises
    [IndexError] on an empty list, hence the [option]. *)
Definition save_request (images : list image) : option ico_request :=
  let szs := map img_size images in
  let images_sorted := sorted_reverse pixel_area images in
  match images_sorted with
  | [] => None
  | first :: others =>
      Some (IcoRequest first szs
              (if bool_decide (1 < length images_sorted)%nat
               then Some others else None))
  end.

(** Lines 57-77: the empty-list check, the output directory, the save. *)
Definition write_ico (images : list image) : Py unit :=
  (match images with
   | [] => print stderr "Error: No PNG images found to convert" >> sys_exit 1
   | _ :: _ => ret tt
   end) >>
  os_makedirs "resources" >>
  match save_request images with
  | Some req =>
      Image_save (primary req) output_ico (sizes req) (append_images req)
  | None => raise IndexError
  end.

(** Lines 79-86: verify the file was created. *)
Definition verify_output : Py unit :=
  let! written := os_path_exists output_ico in
  if written then
    let! size_bytes := os_path_getsize output_ico in
    print stdout (newline +:+ "Successfully created " +:+ output_ico) >>
    print stdout ("Size: " +:+ pretty size_bytes +:+ " bytes ("
                   +:+ pretty (size_bytes `div` 1024) +:+ " KB)")
  else
    print stderr ("Error: Failed to create " +:+ output_ico) >>
    sys_exit 1.

(** Lines 11-86. *)
Definition main : Py unit :=
  let! found := os_path_isdir iconset_dir in
  (if negb found
   then print stderr ("Error: " +:+ iconset_dir +:+ " directory not found") >>
        sys_exit 1
   else ret tt) >>
  let! images := collect png_files [] in
  let! images := generate_48 images in
  write_ico images >>
  verify_output.
End script.

(** ** A concrete Pillow and concrete iconsets, for running the script *)

Module Demo.
(** A toy Pillow.  A picture file starts with a width byte and a height
    byte, where 0 stands for 256 (as in an ICO directory entry); anything
    shorter is not a picture, and a picture whose third byte is [xff] is
    truncated: it opens but does not decode.  The ICO writer stores one byte
    per entry of [sizes]; like Pillow's, which computes
    [[im] + append_images], it raises when [append_images] is [None].  A
    failed save leaves an empty file where there was one, and none where
    there was none. *)
Definition side (b : Byte.byte) : Z :=
  if decide (Byte.to_N b = 0%N) then 256 else Z.of_N (Byte.to_N b).

Definition pillow : Pillow := {|
  image_header data :=
    match data with
    | w :: h :: _ => Some (side w, side h)
    | _ => None
    end;
  open_exception _ := UnidentifiedImageError;
  load_exception data :=
    match data with
    | _ :: _ :: Byte.xff :: _ => Some OSError
    | _ => None
    end;
  ico_encode req :=
    match append_images req with
    | Some _ => Some (replicate (length (sizes req)) Byte.x00)
    | None => None
    end;
  save_residue _ existed := if existed then Some [] else None;
  has_Resampling := true;
|}.

Definition png16 : list Byte.byte := [Byte.x10; Byte.x10].
Definition png32 : list Byte.byte := [Byte.x20; Byte.x20].
Definition png64 : list Byte.byte := [Byte.x40; Byte.x40].
Definition png128 : list Byte.byte := [Byte.x80; Byte.x80].
Definition png256 : list Byte.byte := [Byte.x00; Byte.x00].

(** All five expected files. *)
Definition full : fs :=
  Fs {[ iconset_dir ]}
     (list_to_map
        [ (in_iconset "icon_16x16.png", png16);
          (in_iconset "icon_32x32.png", png32);
          (in_iconset "icon_32x32@2x.png", png64);
          (in_iconset "icon_128x128.png", png128);
          (in_iconset "icon_256x256.png", png256) ]).

(** Only the 256x256 file. *)
Definition only_256 : fs :=
  Fs {[ iconset_dir ]} {[ in_iconset "icon_256x256.png" := png256 ]}.

(** The 256x256 file is missing, two others are there. *)
Definition without_256 : fs :=
  Fs {[ iconset_dir ]}
     (list_to_map
        [ (in_iconset "icon_16x16.png", png16);
          (in_iconset "icon_128x128.png", png128) ]).

(** The directory is there but holds none of the expected files. *)
Definition unrelated : fs :=
  Fs {[ iconset_dir ]} {[ in_iconset "README.txt" := [Byte.x68; Byte.x69] ]}.

(** No iconset directory at all. *)
Definition no_iconset : fs :=
  Fs ∅ {[ "setup.py" := [Byte.x68; Byte.x69] ]}.

Definition img16 : image := Opened png16 (16, 16).
Definition img32 : image := Opened png32 (32, 32).
Definition img64 : image := Opened png64 (64, 64).
Definition img128 : image := Opened png128 (128, 128).
Definition img256 : image := Opened png256 (256, 256).

(** What [save] is asked to write on [full], [only_256] and
    [without_256]. *)
Definition full_request : ico_request :=
  IcoRequest img256
    [(16, 16); (32, 32); (48, 48); (64, 64); (128, 128); (256, 256)]
    (Some [img128; img64; resized_48 img256; img32; img16]).

Definition only_256_request : ico_request :=
  IcoRequest img256 [(256, 256); (48, 48)] (Some [resized_48 img256]).

Definition without_256_request : ico_request :=
  IcoRequest img128 [(16, 16); (128, 128)] (Some [img16]).
End Demo.

(** ** Vocabulary of the statements *)

(** An expected file is present when [os.path.exists] holds of its path. *)
Definition present (s : fs) (name : string) : Prop :=
  exists_path s (in_iconset name) = true.

#[global] Instance present_dec s name : Decision (present s name) :=
  bool_eq_dec (exists_path s (in_iconset name)) true.

(** The expected files that are present, in the order of [png_files]. *)
Definition present_names (s : fs) : list string := filter (present s) png_files.

(** The message of line 41. *)
Definition warning (name : string) : event :=
  Print stderr ("Warning: " +:+ name +:+ " not found").

(** The effects that change the file system. *)
Definition is_write (e : event) : bool :=
  match e with
  | Makedirs _ _ | ImageSave _ _ _ => true
  | _ => false
  end.

Definition is_open (e : event) : bool :=
  match e with ImageOpen _ _ => true | _ => false end.

Definition is_resize (e : event) : bool :=
  match e with ImageResize _ _ _ _ => true | _ => false end.

(** The [save] call was made with request [req] and returned normally. *)
Definition saved {A} (r : run A) (req : ico_request) : Prop :=
  ImageSave output_ico req true ∈ trace r.

(** Descending key order: every element is at least as large as all that
    follow it. *)
Definition descending {A} (key : A → Z) : list A → Prop :=
  StronglySorted (λ a b, key b ≤ key a).

Section observations.
Context `{Pillow}.

(** The value of [images] when the loop of lines 34-41 is left. *)
Definition loop_images (s : fs) : result (list image) :=
  outcome (collect png_files [] s).

(** Lines 32-55 as one computation. *)
Definition gather : Py (list image) := bind (collect png_files []) generate_48.

(** The value of [images] at line 57, after the 48x48 entry was added. *)
Definition collected (s : fs) : result (list image) := outcome (gather s).

(** The images [Image.open] yields for the given expected names. *)
Definition found (s : fs) (names : list string) : list image :=
  omap (λ name, image_at s (in_iconset name)) names.

(** [imgs] are the opened images of the expected files that are present,
    one for one and in order. *)
Definition images_of_present (s : fs) (imgs : list image) : Prop :=
  Forall2 (λ name img, image_at s (in_iconset name) = Some img)
          (present_names s) imgs.
End observations.

(** Two file systems with the same source directory: the directory itself and
    each of the five expected paths are the same kind of thing in both, with
    the same contents. *)
Definition same_entry (s1 s2 : fs) (path : string) : Prop :=
  isdir s1 path = isdir s2 path ∧ files s1 !! path = files s2 !! path.

Definition same_iconset (s1 s2 : fs) : Prop :=
  isdir s1 iconset_dir = isdir s2 iconset_dir ∧
  Forall (λ name, same_entry s1 s2 (in_iconset name)) png_files.

(** The report of lines 80-83. *)
Definition success_report (bytes : list Byte.byte) : list event :=
  [ Print stdout (newline +:+ "Successfully created " +:+ output_ico);
    Print stdout ("Size: " +:+ pretty (Z.of_nat (length bytes)) +:+ " bytes ("
                  +:+ pretty (Z.of_nat (length bytes) `div` 1024) +:+ " KB)") ].

Section run_shapes.
Context `{Pillow}.

(** The four ways [write_ico] can go on a non-empty list. *)
Inductive write_case (s : fs) (req : ico_request) : run unit → Prop :=
| write_resources_taken :
    "resources" ∉ dirs s → is_Some (files s !! "resources") →
    write_case s req
      (Run (Raise FileExistsError) s [Makedirs "resources" false])
| write_output_is_dir :
    output_ico ∈ dirs s →
    write_case s req
      (Run (Raise IsADirectoryError) (Fs ({["resources"]} ∪ dirs s) (files s))
         [Makedirs "resources" true; ImageSave output_ico req false])
| write_encoder_raises :
    output_ico ∉ dirs s → ico_encode req = None →
    write_case s req
      (Run (Raise EncoderError)
         (Fs ({["resources"]} ∪ dirs s)
             (after_failed_save req output_ico (files s)))
         [Makedirs "resources" true; ImageSave output_ico req false])
| write_done bytes :
    output_ico ∉ dirs s → ico_encode req = Some bytes →
    write_case s req
      (Run (Ret tt)
         (Fs ({["resources"]} ∪ dirs s) (<[output_ico := bytes]> (files s)))
         [Makedirs "resources" true; ImageSave output_ico req true]).

(** Every run of [main] is of one of five kinds. *)
Inductive main_case (s : fs) : run unit → Prop :=
| run_no_iconset :
    iconset_dir ∉ dirs s →
    main_case s
      (Run (SysExit 1) s
         [Print stderr ("Error: " +:+ iconset_dir +:+ " directory not found")])
| run_open_raises e :
    iconset_dir ∈ dirs s → collected s = Raise e →
    main_case s (Run (Raise e) s (trace (gather s)))
| run_nothing_found :
    iconset_dir ∈ dirs s → collected s = Ret [] →
    main_case s
      (Run (SysExit 1) s
         (trace (gather s) ++
          [Print stderr "Error: No PNG images found to convert"]))
| run_write_raises images req e s' t :
    iconset_dir ∈ dirs s → collected s = Ret images →
    save_request images = Some req →
    write_case s req (Run (Raise e) s' t) →
    main_case s (Run (Raise e) s' (trace (gather s) ++ t))
| run_written images req bytes :
    iconset_dir ∈ dirs s → collected s = Ret images →
    save_request images = Some req →
    output_ico ∉ dirs s → ico_encode req = Some bytes →
    main_case s
      (Run (Ret tt)
         (Fs ({["resources"]} ∪ dirs s) (<[output_ico := bytes]> (files s)))
         (trace (gather s) ++
          [Makedirs "resources" true; ImageSave output_ico req true] ++
          success_report bytes)).
End run_shapes.

(** ** Counting effects, and more file systems to run on *)

Definition is_stderr (e : event) : bool :=
  match e with Print stderr _ => true | _ => false end.

(** How many events of a trace satisfy [p]. *)
Definition count_events (p : event → bool) (t : list event) : nat :=
  length (List.filter p t).

(** The resolutions the comments of lines 24-28 give for the five files. *)
Definition nominal_sizes : list dims :=
  [(16, 16); (32, 32); (64, 64); (128, 128); (256, 256)].

Module Cases.
(** icon_16x16.png is fine, icon_32x32.png is a directory and
    icon_128x128.png is no picture. *)
Definition corrupt : fs :=
  Fs ({[ iconset_dir ]} ∪ {[ in_iconset "icon_32x32.png" ]})
     (list_to_map
        [ (in_iconset "icon_16x16.png", Demo.png16);
          (in_iconset "icon_128x128.png", [Byte.x10]) ]).

(** The name of the output directory is taken by a regular file. *)
Definition resources_taken : fs :=
  Fs {[ iconset_dir ]}
     (list_to_map
        [ (in_iconset "icon_32x32.png", Demo.png32);
          ("resources", [Byte.x68; Byte.x69]) ]).

(** The output path is a directory. *)
Definition output_is_dir : fs :=
  Fs ({[ iconset_dir ]} ∪ {[ output_ico ]})
     {[ in_iconset "icon_32x32.png" := Demo.png32 ]}.

(** Only icon_32x32.png is present. *)
Definition only_32 : fs :=
  Fs {[ iconset_dir ]} {[ in_iconset "icon_32x32.png" := Demo.png32 ]}.

Definition only_32_request : ico_request :=
  IcoRequest Demo.img32 [(32, 32)] None.

(** icon_256x256.png is the only expected file and is 8 by 8. *)
Definition small_256 : fs :=
  Fs {[ iconset_dir ]} {[ in_iconset "icon_256x256.png" := [Byte.x08; Byte.x08] ]}.

Definition img8 : image := Opened [Byte.x08; Byte.x08] (8, 8).

Definition small_256_request : ico_request :=
  IcoRequest (resized_48 img8) [(8, 8); (48, 48)] (Some [img8]).

(** icon_256x256.png opens as 256 by 256 but its pixel data is truncated;
    icon_16x16.png is fine. *)
Definition truncated_256 : fs :=
  Fs {[ iconset_dir ]}
     (list_to_map
        [ (in_iconset "icon_16x16.png", Demo.png16);
          (in_iconset "icon_256x256.png", [Byte.x00; Byte.x00; Byte.xff]) ]).

(** Two images of equal area, and one larger. *)
Definition wide : image := Opened [Byte.x40; Byte.x10] (64, 16).
Definition tall : image := Opened [Byte.x10; Byte.x40] (16, 64).
End Cases.

(** Proof steps used throughout: membership of an event in an explicit
    trace. *)
Ltac inv_elem H :=
  repeat (apply elem_of_cons in H as [H|H]; [try discriminate H|]);
  try (by apply elem_of_nil in H).

Ltac find_event := repeat first [ by left | right ].

(** * Properties *)

(** ** [sorted(..., reverse=True)] *)

Section sorted_facts.
Context {A : Type} (key : A → Z).

Lemma insert_desc_perm x (l : list A) : insert_desc key x l ≡ₚ x :: l.
Proof.
  induction l as [|y l IH]; simpl; [done|].
  destruct (key y <=? key x); [done|].
  rewrite IH. apply Permutation_swap.
Qed.

Lemma sorted_reverse_perm (l : list A) : sorted_reverse key l ≡ₚ l.
Proof.
  induction l as [|x l IH]; simpl; [done|].
  rewrite insert_desc_perm. by f_equiv.
Qed.

Lemma insert_desc_descending x (l : list A) :
  descending key l → descending key (insert_desc key x l).
Proof.
  unfold descending.
  induction 1 as [|y l Hl IH Hy]; simpl.
  - repeat constructor.
  - destruct (Z.leb_spec (key y) (key x)) as [Hle|Hlt].
    + constructor; [by constructor|].
      constructor; [done|].
      eapply List.Forall_impl; [|exact Hy]. simpl. intros; lia.
    + constructor; [done|].
      rewrite insert_desc_perm. constructor; [lia | done].
Qed.

Lemma sorted_reverse_descending (l : list A) :
  descending key (sorted_reverse key l).
Proof.
  induction l; simpl; [constructor | by apply insert_desc_descending].
Qed.

(** Stability: among the elements of any one key, the original order is
    kept. *)
Lemma insert_desc_stable k x (l : list A) :
  filter (λ a, key a = k) (insert_desc key x l)
  = filter (λ a, key a = k) (x :: l).
Proof.
  induction l as [|y l IH]; simpl; [done|].
  destruct (Z.leb_spec (key y) (key x)) as [Hle|Hlt]; [done|].
  rewrite (filter_cons _ y), IH, !filter_cons.
  destruct (decide (key x = k)), (decide (key y = k)); try done; lia.
Qed.

Lemma sorted_reverse_stable k (l : list A) :
  filter (λ a, key a = k) (sorted_reverse key l) = filter (λ a, key a = k) l.
Proof.
  induction l as [|x l IH]; simpl; [done|].
  by rewrite insert_desc_stable, !filter_cons, IH.
Qed.

Lemma sorted_reverse_nil_inv (l : list A) : sorted_reverse key l = [] → l = [].
Proof.
  intros E. apply Permutation_nil_r. rewrite <- E.
  symmetry. apply sorted_reverse_perm.
Qed.
End sorted_facts.

(** ** The monad *)

Lemma bind_run {A B} (m : Py A) (k : A → Py B) (s : fs) :
  bind m k s =
  match outcome (m s) with
  | Ret a =>
      Run (outcome (k a (final (m s)))) (final (k a (final (m s))))
          (trace (m s) ++ trace (k a (final (m s))))
  | SysExit c => Run (SysExit c) (final (m s)) (trace (m s))
  | Raise e => Run (Raise e) (final (m s)) (trace (m s))
  end.
Proof. reflexivity. Qed.

Lemma bind_assoc {A B C} (m : Py A) (f : A → Py B) (g : B → Py C) (s : fs) :
  bind (bind m f) g s = bind m (λ a, bind (f a) g) s.
Proof.
  rewrite !bind_run. destruct (outcome (m s)) as [a| |] eqn:Em; simpl; try done.
  rewrite !bind_run. destruct (outcome (f a _)); simpl; try done.
  by rewrite app_assoc.
Qed.

Lemma run_eta {A} (r : run A) : Run (outcome r) (final r) (trace r) = r.
Proof. by destruct r. Qed.

(** ** The file-system queries *)

Lemma exists_path_false s path :
  exists_path s path = false ↔ ((path ∉ dirs s) ∧ files s !! path = None).
Proof.
  unfold exists_path. rewrite orb_false_iff, !bool_decide_eq_false.
  rewrite <- eq_None_not_Some. done.
Qed.

Lemma not_present s name :
  (¬ present s name) ↔
  ((in_iconset name ∉ dirs s) ∧ files s !! in_iconset name = None).
Proof.
  unfold present. rewrite <- exists_path_false.
  destruct (exists_path s (in_iconset name)); naive_solver.
Qed.

Section run_facts.
Context `{Pillow}.

Lemma lanczos_eq : lanczos = LANCZOS.
Proof. unfold lanczos. by destruct has_Resampling. Qed.

Lemma image_at_missing s name : ¬ present s name → image_at s (in_iconset name) = None.
Proof.
  rewrite not_present. intros [Hd Hf]. unfold image_at.
  rewrite bool_decide_eq_false_2 by done. by rewrite Hf.
Qed.

Lemma image_at_present s name img :
  image_at s (in_iconset name) = Some img → present s name.
Proof.
  intros Himg. destruct (decide (present s name)) as [|Hn]; [done|].
  apply image_at_missing in Hn. congruence.
Qed.

(** *** One iteration of the loop *)

Lemma collect_one_opened images name s img :
  image_at s (in_iconset name) = Some img →
  collect_one images name s =
  Run (Ret (images ++ [img])) s
      [ ImageOpen (in_iconset name) (Some img);
        Print stdout ("Added " +:+ name +:+ " (" +:+ show_dims (img_size img) +:+ ")") ].
Proof.
  intros Himg. pose proof (image_at_present _ _ _ Himg) as Hp.
  unfold present, in_iconset in *.
  unfold collect_one. rewrite bind_run. simpl. rewrite Hp.
  rewrite bind_run. unfold Image_open. rewrite Himg. simpl. done.
Qed.

Lemma collect_one_missing images name s :
  ¬ present s name →
  collect_one images name s = Run (Ret images) s [warning name].
Proof.
  unfold present, in_iconset. intros Hp%not_true_is_false.
  unfold collect_one. rewrite bind_run. simpl. by rewrite Hp.
Qed.

Lemma collect_one_unreadable images name s :
  present s name → image_at s (in_iconset name) = None →
  collect_one images name s =
  Run (Raise (open_error s (in_iconset name))) s [ImageOpen (in_iconset name) None].
Proof.
  unfold present, in_iconset. intros Hp Himg.
  unfold collect_one. rewrite bind_run. simpl. rewrite Hp.
  rewrite bind_run. unfold Image_open. by rewrite Himg.
Qed.

Lemma collect_one_cases images name s :
  (¬ present s name ∧ collect_one images name s = Run (Ret images) s [warning name]) ∨
  (∃ img, image_at s (in_iconset name) = Some img ∧ present s name ∧
     collect_one images name s =
     Run (Ret (images ++ [img])) s
       [ ImageOpen (in_iconset name) (Some img);
         Print stdout ("Added " +:+ name +:+ " (" +:+ show_dims (img_size img) +:+ ")") ]) ∨
  (present s name ∧ image_at s (in_iconset name) = None ∧
     collect_one images name s =
     Run (Raise (open_error s (in_iconset name))) s [ImageOpen (in_iconset name) None]).
Proof.
  destruct (decide (present s name)) as [Hp|Hp].
  - destruct (image_at s (in_iconset name)) as [img|] eqn:Himg.
    + right; left. eauto using collect_one_opened.
    + right; right. eauto using collect_one_unreadable.
  - left. eauto using collect_one_missing.
Qed.
End run_facts.

Section loop_facts.
Context `{Pillow}.

(** *** The loop of lines 34-41 *)

Lemma collect_nil images s : collect [] images s = Run (Ret images) s [].
Proof. done. Qed.

Lemma collect_cons name names images s :
  collect (name :: names) images s =
  bind (collect_one images name) (collect names) s.
Proof. done. Qed.

Lemma found_cons_missing s name names :
  ¬ present s name → found s (name :: names) = found s names.
Proof. intros Hn. unfold found. simpl. by rewrite image_at_missing. Qed.

Lemma found_cons_opened s name names img :
  image_at s (in_iconset name) = Some img →
  found s (name :: names) = img :: found s names.
Proof. intros Himg. unfold found. simpl. by rewrite Himg. Qed.

(** The loop never touches the file system and performs no write, no
    resize and no exit.  When it is left normally, every present file was
    opened, in the order of [png_files], and every missing one was warned
    about; it is left by an exception exactly when a present path cannot
    be opened as an image. *)
Lemma collect_spec names : ∀ images s,
  final (collect names images s) = s ∧
  Forall (λ e, is_write e = false ∧ is_resize e = false)
         (trace (collect names images s)) ∧
  match outcome (collect names images s) with
  | Ret l =>
      l = images ++ found s names ∧
      (∀ name, name ∈ names → ¬ present s name →
         warning name ∈ trace (collect names images s)) ∧
      (∀ name, name ∈ names → present s name →
         is_Some (image_at s (in_iconset name)))
  | SysExit _ => False
  | Raise _ =>
      ∃ name, name ∈ names ∧ present s name ∧
              image_at s (in_iconset name) = None
  end.
Proof.
  induction names as [|name names IH]; intros images s.
  - rewrite collect_nil. simpl. split_and!; try done.
    + by rewrite app_nil_r.
    + intros ? []%elem_of_nil.
    + intros ? []%elem_of_nil.
  - rewrite collect_cons, bind_run.
    destruct (collect_one_cases images name s)
      as [[Hn ->]|[(img & Himg & Hp & ->)|(Hp & Himg & ->)]];
      cbn [outcome final trace].
    + destruct (IH images s) as (Hf & Hq & Ho). split_and!; [done| |].
      { constructor; [done|]. done. }
      destruct (outcome (collect names images s)) as [l| |e]; [|done|].
      * destruct Ho as (-> & Hw & Hi). split_and!.
        -- by rewrite found_cons_missing.
        -- intros n [->|Hin]%elem_of_cons Hnn; [by left|].
           right. by apply Hw.
        -- intros n [->|Hin]%elem_of_cons Hnn; [done|]. by apply Hi.
      * destruct Ho as (n & Hin & Hpn & Hnone). exists n.
        split_and!; [by right|done..].
    + destruct (IH (images ++ [img]) s) as (Hf & Hq & Ho). split_and!; [done| |].
      { repeat (constructor; [done|]). done. }
      destruct (outcome (collect names (images ++ [img]) s)) as [l| |e]; [|done|].
      * destruct Ho as (-> & Hw & Hi). split_and!.
        -- rewrite (found_cons_opened _ _ _ _ Himg), <- app_assoc. done.
        -- intros n [->|Hin]%elem_of_cons Hnn; [done|].
           do 2 right. by apply Hw.
        -- intros n [->|Hin]%elem_of_cons Hnn; [by eexists|]. by apply Hi.
      * destruct Ho as (n & Hin & Hpn & Hnone). exists n.
        split_and!; [by right|done..].
    + split_and!; [done|by repeat constructor|].
      exists name. split_and!; [by left|done..].
Qed.

(** Totality: when every present path opens, the loop returns. *)
Lemma collect_returns names images s :
  (∀ name, name ∈ names → present s name →
     is_Some (image_at s (in_iconset name))) →
  outcome (collect names images s) = Ret (images ++ found s names).
Proof.
  intros Hall. destruct (collect_spec names images s) as (_ & _ & Ho).
  destruct (outcome (collect names images s)) as [l| |e]; [|done|].
  - by destruct Ho as (-> & _).
  - destruct Ho as (n & Hin & Hp & Hnone).
    destruct (Hall n Hin Hp) as [? ?]. congruence.
Qed.

(** *** The 48x48 entry, lines 43-55 *)

Lemma generate_48_missing images s :
  ¬ present s "icon_256x256.png" →
  generate_48 images s = Run (Ret images) s [].
Proof.
  unfold present, in_iconset. intros Hp%not_true_is_false.
  unfold generate_48. rewrite bind_run. simpl. by rewrite Hp.
Qed.

Lemma generate_48_opened images s img :
  image_at s (in_iconset "icon_256x256.png") = Some img →
  load_error img = None →
  generate_48 images s =
  Run (Ret (list_insert_at 2 (resized_48 img) images)) s
      [ ImageOpen (in_iconset "icon_256x256.png") (Some img);
        ImageResize img (48, 48) LANCZOS true;
        Print stdout "Generated 48x48 from 256x256" ].
Proof.
  intros Himg Hload. pose proof (image_at_present _ _ _ Himg) as Hp.
  unfold present, in_iconset in *.
  unfold generate_48. rewrite bind_run. simpl. rewrite Hp.
  rewrite bind_run. unfold Image_open. rewrite Himg. cbn [outcome final trace].
  rewrite bind_run. unfold Image_resize. rewrite Hload, lanczos_eq. done.
Qed.

Lemma generate_48_unloadable images s img e :
  image_at s (in_iconset "icon_256x256.png") = Some img →
  load_error img = Some e →
  generate_48 images s =
  Run (Raise e) s
      [ ImageOpen (in_iconset "icon_256x256.png") (Some img);
        ImageResize img (48, 48) LANCZOS false ].
Proof.
  intros Himg Hload. pose proof (image_at_present _ _ _ Himg) as Hp.
  unfold present, in_iconset in *.
  unfold generate_48. rewrite bind_run. simpl. rewrite Hp.
  rewrite bind_run. unfold Image_open. rewrite Himg. cbn [outcome final trace].
  rewrite bind_run. unfold Image_resize. rewrite Hload, lanczos_eq. done.
Qed.

Lemma generate_48_unreadable images s :
  present s "icon_256x256.png" →
  image_at s (in_iconset "icon_256x256.png") = None →
  generate_48 images s =
  Run (Raise (open_error s (in_iconset "icon_256x256.png"))) s
      [ImageOpen (in_iconset "icon_256x256.png") None].
Proof.
  unfold present, in_iconset. intros Hp Himg.
  unfold generate_48. rewrite bind_run. simpl. rewrite Hp.
  rewrite bind_run. unfold Image_open. by rewrite Himg.
Qed.
End loop_facts.

(** ** Writing the icon, lines 57-86 *)

Lemma os_makedirs_ok path s :
  path ∈ dirs s ∨ ((path ∉ dirs s) ∧ files s !! path = None) →
  os_makedirs path s =
  Run (Ret tt) (Fs ({[path]} ∪ dirs s) (files s)) [Makedirs path true].
Proof.
  unfold os_makedirs. intros [Hd|[Hd Hf]].
  - rewrite bool_decide_eq_true_2 by done.
    rewrite (subseteq_union_1_L {[path]} (dirs s)) by (by apply singleton_subseteq_l).
    by destruct s.
  - rewrite bool_decide_eq_false_2 by done.
    rewrite bool_decide_eq_false_2; [done|]. rewrite Hf. by intros [? ?].
Qed.

Lemma os_makedirs_taken path s :
  path ∉ dirs s → is_Some (files s !! path) →
  os_makedirs path s = Run (Raise FileExistsError) s [Makedirs path false].
Proof.
  unfold os_makedirs. intros Hd Hf.
  rewrite bool_decide_eq_false_2 by done. by rewrite bool_decide_eq_true_2.
Qed.

Lemma save_request_cons img images :
  ∃ first others,
    sorted_reverse pixel_area (img :: images) = first :: others ∧
    save_request (img :: images) =
    Some (IcoRequest first (map img_size (img :: images))
            (if bool_decide (1 < length (first :: others))%nat
             then Some others else None)).
Proof.
  unfold save_request.
  destruct (sorted_reverse pixel_area (img :: images)) as [|first others] eqn:E.
  - by apply sorted_reverse_nil_inv in E.
  - by exists first, others.
Qed.

Lemma save_request_is_Some images : images ≠ [] → is_Some (save_request images).
Proof.
  destruct images as [|img images]; [done|]. intros _.
  destruct (save_request_cons img images) as (? & ? & _ & ->). by eexists.
Qed.

Lemma save_request_nil_inv images req : save_request images = Some req → images ≠ [].
Proof. by intros E ->. Qed.

Lemma output_ico_not_resources : output_ico ≠ "resources".
Proof. done. Qed.

Lemma bind_Ret {A B} (m : Py A) (k : A → Py B) s a s' t :
  m s = Run (Ret a) s' t →
  bind m k s = Run (outcome (k a s')) (final (k a s')) (t ++ trace (k a s')).
Proof. intros E. by rewrite bind_run, E. Qed.

Lemma bind_Ret_nil {A B} (m : Py A) (k : A → Py B) s a s' :
  m s = Run (Ret a) s' [] → bind m k s = k a s'.
Proof. intros E. rewrite bind_run, E. apply run_eta. Qed.

Lemma bind_Raise {A B} (m : Py A) (k : A → Py B) s e s' t :
  m s = Run (Raise e) s' t → bind m k s = Run (Raise e) s' t.
Proof. intros E. by rewrite bind_run, E. Qed.

Lemma bind_SysExit {A B} (m : Py A) (k : A → Py B) s c s' t :
  m s = Run (SysExit c) s' t → bind m k s = Run (SysExit c) s' t.
Proof. intros E. by rewrite bind_run, E. Qed.


Lemma verify_output_written s bytes :
  files s !! output_ico = Some bytes →
  verify_output s = Run (Ret tt) s (success_report bytes).
Proof.
  intros Hf. unfold verify_output.
  rewrite (bind_Ret_nil _ _ s (exists_path s output_ico) s) by done.
  assert (exists_path s output_ico = true) as ->.
  { unfold exists_path.
    rewrite (bool_decide_eq_true_2 (is_Some _)) by (by rewrite Hf).
    apply orb_true_r. }
  rewrite (bind_Ret_nil _ _ s (Z.of_nat (length bytes)) s)
    by (unfold os_path_getsize; by rewrite Hf).
  reflexivity.
Qed.

Section write_facts.
Context `{Pillow}.

Lemma Image_save_is_dir im path szs more s :
  path ∈ dirs s →
  Image_save im path szs more s =
  Run (Raise IsADirectoryError) s [ImageSave path (IcoRequest im szs more) false].
Proof. intros Hd. unfold Image_save. by rewrite bool_decide_eq_true_2. Qed.

Lemma Image_save_raises im path szs more s :
  path ∉ dirs s → ico_encode (IcoRequest im szs more) = None →
  Image_save im path szs more s =
  Run (Raise EncoderError)
      (Fs (dirs s) (after_failed_save (IcoRequest im szs more) path (files s)))
      [ImageSave path (IcoRequest im szs more) false].
Proof.
  intros Hd He. unfold Image_save. rewrite bool_decide_eq_false_2 by done.
  by rewrite He.
Qed.

Lemma Image_save_writes im path szs more s bytes :
  path ∉ dirs s → ico_encode (IcoRequest im szs more) = Some bytes →
  Image_save im path szs more s =
  Run (Ret tt) (Fs (dirs s) (<[path := bytes]> (files s)))
      [ImageSave path (IcoRequest im szs more) true].
Proof.
  intros Hd He. unfold Image_save. rewrite bool_decide_eq_false_2 by done.
  by rewrite He.
Qed.

Lemma write_ico_nil s :
  write_ico [] s =
  Run (SysExit 1) s [Print stderr "Error: No PNG images found to convert"].
Proof. done. Qed.


Lemma write_ico_cases images s req :
  save_request images = Some req →
  write_case s req (write_ico images s).
Proof.
  intros Hreq. pose proof (save_request_nil_inv _ _ Hreq) as Hne.
  destruct images as [|img images]; [done|].
  unfold write_ico. rewrite (bind_Ret_nil _ _ s tt s) by done.
  rewrite Hreq. destruct req as [first szs more].
  cbn [primary sizes append_images app].
  assert (∀ X : gset string, output_ico ∈ {["resources"]} ∪ X ↔ output_ico ∈ X)
    as Hout.
  { intros X. rewrite elem_of_union, elem_of_singleton.
    pose proof output_ico_not_resources. tauto. }
  destruct (decide ("resources" ∈ dirs s)) as [Hd|Hd];
    [|destruct (files s !! "resources") as [junk|] eqn:Hf].
  2:{ erewrite bind_Raise by (apply os_makedirs_taken; by rewrite ?Hf).
      constructor; by rewrite ?Hf. }
  all: assert ("resources" ∈ dirs s ∨
               (("resources" ∉ dirs s) ∧ files s !! "resources" = None)) as Hmk
         by auto.
  all: rewrite (bind_Ret _ _ _ _ _ _ (os_makedirs_ok _ _ Hmk)).
  all: destruct (decide (output_ico ∈ dirs s)) as [Ho|Ho].
  all: try (rewrite Image_save_is_dir by (by apply Hout); by constructor).
  all: destruct (ico_encode (IcoRequest first szs more)) as [bytes|] eqn:Henc.
  all: try (rewrite (Image_save_writes _ _ _ _ _ bytes)
              by (cbn [dirs]; by rewrite ?Hout);
            cbn [outcome final trace app dirs files]; by constructor).
  all: rewrite Image_save_raises by (cbn [dirs]; by rewrite ?Hout);
       cbn [outcome final trace app dirs files]; by constructor.
Qed.
End write_facts.

(** ** The whole run *)

Lemma elem_of_quiet {A} (P : A → Prop) (e : A) (t : list A) :
  Forall P t → e ∈ t → P e.
Proof.
  intros HF Hin. apply list_elem_of_In in Hin.
  by apply (proj1 (List.Forall_forall P t) HF).
Qed.

Section main_facts.
Context `{Pillow}.

(** What the reading half of the script does, by how the loop ends. *)
Lemma gather_spec s :
  final (gather s) = s ∧
  Forall (λ e, is_write e = false) (trace (gather s)) ∧
  match loop_images s with
  | Ret imgs =>
      imgs = found s png_files ∧
      (∀ name, name ∈ png_files → ¬ present s name →
         warning name ∈ trace (gather s)) ∧
      (∀ name, name ∈ png_files → present s name →
         is_Some (image_at s (in_iconset name))) ∧
      match image_at s (in_iconset "icon_256x256.png") with
      | Some img =>
          match load_error img with
          | None =>
              gather s =
              Run (Ret (list_insert_at 2 (resized_48 img) imgs)) s
                  (trace (collect png_files [] s) ++
                   [ ImageOpen (in_iconset "icon_256x256.png") (Some img);
                     ImageResize img (48, 48) LANCZOS true;
                     Print stdout "Generated 48x48 from 256x256" ])
          | Some e =>
              gather s =
              Run (Raise e) s
                  (trace (collect png_files [] s) ++
                   [ ImageOpen (in_iconset "icon_256x256.png") (Some img);
                     ImageResize img (48, 48) LANCZOS false ])
          end
      | None =>
          ¬ present s "icon_256x256.png" ∧
          gather s = Run (Ret imgs) s (trace (collect png_files [] s))
      end
  | SysExit _ => False
  | Raise e =>
      gather s = Run (Raise e) s (trace (collect png_files [] s)) ∧
      ∃ name, name ∈ png_files ∧ present s name ∧
              image_at s (in_iconset name) = None
  end.
Proof.
  unfold loop_images, gather. rewrite bind_run.
  destruct (collect_spec png_files [] s) as (Hf & Hq & Ho).
  destruct (outcome (collect png_files [] s)) as [imgs| |e] eqn:Eo;
    [|done|]; rewrite Hf.
  - destruct Ho as (Himgs & Hw & Hi). rewrite app_nil_l in Himgs.
    assert ("icon_256x256.png" ∈ png_files) as H256
      by (unfold png_files; do 4 right; by left).
    destruct (image_at s (in_iconset "icon_256x256.png")) as [img|] eqn:Himg.
    + assert (Forall (λ e, is_write e = false) (trace (collect png_files [] s)))
        as Hq' by (eapply List.Forall_impl; [|exact Hq]; by intros ? [? ?]).
      destruct (load_error img) as [e|] eqn:Hload.
      * rewrite (generate_48_unloadable _ _ _ _ Himg Hload).
        cbn [outcome final trace]. split_and!; try done.
        -- apply Forall_app. split; [done|by repeat constructor].
        -- intros name Hin Hn. apply elem_of_app. left. by apply Hw.
      * rewrite (generate_48_opened _ _ _ Himg Hload).
        cbn [outcome final trace]. split_and!; try done.
        -- apply Forall_app. split; [done|by repeat constructor].
        -- intros name Hin Hn. apply elem_of_app. left. by apply Hw.
    + assert (¬ present s "icon_256x256.png") as Hn.
      { intros Hp. destruct (Hi _ H256 Hp) as [? ?]. congruence. }
      rewrite (generate_48_missing _ _ Hn). cbn [outcome final trace].
      rewrite app_nil_r. split_and!; try done.
      eapply List.Forall_impl; [|exact Hq]. by intros ? [? ?].
  - cbn [outcome final trace]. split_and!; try done.
    eapply List.Forall_impl; [|exact Hq]. by intros ? [? ?].
Qed.

Lemma gather_final s : final (gather s) = s.
Proof. apply gather_spec. Qed.

Lemma gather_quiet s e : e ∈ trace (gather s) → is_write e = false.
Proof.
  apply (elem_of_quiet (λ e, is_write e = false)). apply gather_spec.
Qed.

Lemma collected_not_exit s c : collected s ≠ SysExit c.
Proof.
  unfold collected. intros E.
  destruct (gather_spec s) as (_ & _ & Hs).
  destruct (loop_images s) as [imgs| |e]; [|done|].
  - destruct Hs as (_ & _ & _ & Hs).
    destruct (image_at s (in_iconset "icon_256x256.png")) as [img|].
    + destruct (load_error img); by rewrite Hs in E.
    + destruct Hs as [_ Hs]. by rewrite Hs in E.
  - destruct Hs as [Hs _]. by rewrite Hs in E.
Qed.

Lemma main_no_iconset s :
  iconset_dir ∉ dirs s →
  main s =
  Run (SysExit 1) s
      [Print stderr ("Error: " +:+ iconset_dir +:+ " directory not found")].
Proof.
  intros Hd. unfold main.
  rewrite (bind_Ret_nil _ _ s false s)
    by (unfold os_path_isdir, isdir; by rewrite bool_decide_eq_false_2).
  reflexivity.
Qed.

Lemma main_iconset s :
  iconset_dir ∈ dirs s →
  main s = bind gather (λ images, bind (write_ico images) (λ _, verify_output)) s.
Proof.
  intros Hd. unfold main.
  rewrite (bind_Ret_nil _ _ s true s)
    by (unfold os_path_isdir, isdir; by rewrite bool_decide_eq_true_2).
  cbn [negb]. rewrite (bind_Ret_nil _ _ s tt s) by done.
  unfold gather. by rewrite bind_assoc.
Qed.
End main_facts.


Section main_cases.
Context `{Pillow}.


Lemma main_cases s : main_case s (main s).
Proof.
  destruct (decide (iconset_dir ∈ dirs s)) as [Hd|Hd];
    [|rewrite main_no_iconset by done; by constructor].
  rewrite main_iconset by done. rewrite bind_run, gather_final.
  destruct (outcome (gather s)) as [images|c|e] eqn:Eg.
  - destruct images as [|img images].
    + rewrite (bind_SysExit _ _ _ _ _ _ (write_ico_nil s)).
      cbn [outcome final trace]. by constructor.
    + destruct (save_request_is_Some (img :: images)) as [req Hreq]; [done|].
      pose proof (write_ico_cases _ s _ Hreq) as Hw.
      destruct (write_ico (img :: images) s) as [o s' t] eqn:Ew.
      destruct o as [[]|c|e].
      * inversion Hw as [| | |bytes Ho He]; subst.
        rewrite (bind_Ret _ _ _ _ _ _ Ew).
        rewrite (verify_output_written _ bytes)
          by (cbn [files]; apply lookup_insert_eq).
        cbn [outcome final trace]. by econstructor.
      * inversion Hw.
      * rewrite (bind_Raise _ _ _ _ _ _ Ew). cbn [outcome final trace].
        by econstructor.
  - by apply collected_not_exit in Eg.
  - by constructor.
Qed.

(** A successful save pins the whole run down. *)
Lemma main_saved s req :
  saved (main s) req →
  iconset_dir ∈ dirs s ∧
  ∃ images bytes,
    collected s = Ret images ∧
    save_request images = Some req ∧
    (output_ico ∉ dirs s) ∧
    ico_encode req = Some bytes ∧
    main s =
    Run (Ret tt)
        (Fs ({["resources"]} ∪ dirs s) (<[output_ico := bytes]> (files s)))
        (trace (gather s) ++
         [Makedirs "resources" true; ImageSave output_ico req true] ++
         success_report bytes).
Proof.
  unfold saved. intros Hs.
  destruct (main_cases s) as [Hd|e Hd Hc|Hd Hc|images req' e s' t Hd Hc Hr Hw
                             |images req' bytes Hd Hc Hr Ho He];
    cbn [trace] in Hs.
  - inv_elem Hs.
  - by apply gather_quiet in Hs.
  - apply elem_of_app in Hs as [Hs|Hs]; [by apply gather_quiet in Hs|].
    inv_elem Hs.
  - apply elem_of_app in Hs as [Hs|Hs]; [by apply gather_quiet in Hs|].
    inversion Hw; subst; inv_elem Hs.
  - apply elem_of_app in Hs as [Hs|Hs]; [by apply gather_quiet in Hs|].
    unfold success_report in Hs.
    apply elem_of_cons in Hs as [Hs|Hs]; [discriminate|].
    apply elem_of_cons in Hs as [Hs|Hs]; [|inv_elem Hs].
    injection Hs as ->. split; [done|]. by exists images, bytes.
Qed.

(** Whenever [save] is called, successfully or not, it is called once, on the
    output path, with the request built from the list of line 57. *)
Lemma main_save_call s path req ok :
  ImageSave path req ok ∈ trace (main s) →
  path = output_ico ∧
  ∃ images, collected s = Ret images ∧ save_request images = Some req.
Proof.
  intros He.
  assert (ImageSave path req ok ∉ trace (gather s)) as Hq
    by (by intros ?%gather_quiet).
  destruct (main_cases s) as [Hd|e Hd Hc|Hd Hc|images req' e s' t Hd Hc Hr Hw
                             |images req' bytes Hd Hc Hr Ho Henc];
    cbn [trace] in He.
  - inv_elem He.
  - done.
  - apply elem_of_app in He as [He|He]; [done|]. inv_elem He.
  - apply elem_of_app in He as [He|He]; [done|].
    inversion Hw; subst; inv_elem He; injection He as -> -> ->; eauto.
  - apply elem_of_app in He as [He|He]; [done|].
    unfold success_report in He. simpl in He.
    inv_elem He. injection He as -> -> ->. eauto.
Qed.

(** Totality: with a readable iconset, a free place for the output and an
    encoder that accepts the request, the icon is written. *)
Lemma main_succeeds s images req bytes :
  iconset_dir ∈ dirs s →
  collected s = Ret images →
  save_request images = Some req →
  "resources" ∈ dirs s ∨ files s !! "resources" = None →
  output_ico ∉ dirs s →
  ico_encode req = Some bytes →
  saved (main s) req ∧ outcome (main s) = Ret tt ∧
  files (final (main s)) !! output_ico = Some bytes.
Proof.
  intros Hd Hc Hr Hres Ho He. unfold saved.
  destruct (main_cases s) as [Hd'|e Hd' Hc'|Hd' Hc'
                             |images' req' e s' t Hd' Hc' Hr' Hw
                             |images' req' bytes' Hd' Hc' Hr' Ho' He'];
    try done; try congruence.
  - rewrite Hc in Hc'. injection Hc' as ->. by apply save_request_nil_inv in Hr.
  - rewrite Hc in Hc'. injection Hc' as <-. rewrite Hr in Hr'. injection Hr' as <-.
    inversion Hw as [Hnd Hf| | |]; subst; try congruence.
    destruct Hres as [?|Hnone]; [done|]. rewrite Hnone in Hf. by destruct Hf.
  - rewrite Hc in Hc'. injection Hc' as <-. rewrite Hr in Hr'. injection Hr' as <-.
    rewrite He in He'. injection He' as <-. cbn [outcome final trace files].
    split_and!; [|done|apply lookup_insert_eq].
    apply elem_of_app. right. right. by left.
Qed.
End main_cases.

(** ** Which files were found *)

Lemma elem_of_present_names s name :
  name ∈ present_names s ↔ name ∈ png_files ∧ present s name.
Proof. unfold present_names. rewrite list_elem_of_filter. tauto. Qed.

Lemma isdir_true s path : isdir s path = true ↔ path ∈ dirs s.
Proof. unfold isdir. apply bool_decide_eq_true. Qed.

Lemma isdir_false s path : isdir s path = false ↔ path ∉ dirs s.
Proof. unfold isdir. apply bool_decide_eq_false. Qed.

Section found_facts.
Context `{Pillow}.

Lemma found_present names s :
  (∀ name, name ∈ names → present s name →
     is_Some (image_at s (in_iconset name))) →
  Forall2 (λ name img, image_at s (in_iconset name) = Some img)
          (filter (present s) names) (found s names).
Proof.
  induction names as [|name names IH]; intros Hall; [constructor|].
  assert (Forall2 (λ name img, image_at s (in_iconset name) = Some img)
            (filter (present s) names) (found s names)) as IH'.
  { apply IH. intros n Hin. apply Hall. by right. }
  rewrite filter_cons. destruct (decide (present s name)) as [Hp|Hn].
  - destruct (Hall name) as [img Himg]; [by left|done|].
    rewrite (found_cons_opened _ _ _ _ Himg). by constructor.
  - by rewrite found_cons_missing.
Qed.

(** The list at line 57 in terms of the list the loop left. *)
Lemma collected_eq s imgs :
  loop_images s = Ret imgs →
  images_of_present s imgs ∧
  match image_at s (in_iconset "icon_256x256.png") with
  | Some img =>
      match load_error img with
      | None => collected s = Ret (list_insert_at 2 (resized_48 img) imgs)
      | Some e => collected s = Raise e
      end
  | None => ¬ present s "icon_256x256.png" ∧ collected s = Ret imgs
  end.
Proof.
  intros Hl. destruct (gather_spec s) as (_ & _ & Hs). rewrite Hl in Hs.
  destruct Hs as (-> & _ & Hall & Hs). split.
  - by apply found_present.
  - unfold collected.
    destruct (image_at s (in_iconset "icon_256x256.png")) as [img|].
    + destruct (load_error img); by rewrite Hs.
    + destruct Hs as [Hn Hs]. by rewrite Hs.
Qed.

(** The same, for a run whose reading half returned. *)
Lemma collected_Ret_eq s imgs images :
  loop_images s = Ret imgs →
  collected s = Ret images →
  images_of_present s imgs ∧
  match image_at s (in_iconset "icon_256x256.png") with
  | Some img =>
      load_error img = None ∧
      images = list_insert_at 2 (resized_48 img) imgs
  | None => ¬ present s "icon_256x256.png" ∧ images = imgs
  end.
Proof.
  intros Hl Hc. destruct (collected_eq _ _ Hl) as [Himgs Hc']. split; [done|].
  destruct (image_at s (in_iconset "icon_256x256.png")) as [img|].
  - destruct (load_error img); rewrite Hc in Hc'; [done|].
    by injection Hc' as ->.
  - destruct Hc' as [Hn Hc']. rewrite Hc in Hc'. by injection Hc' as ->.
Qed.

Lemma collected_Ret_inv s images :
  collected s = Ret images → ∃ imgs, loop_images s = Ret imgs.
Proof.
  unfold collected. intros Hc. destruct (gather_spec s) as (_ & _ & Hs).
  destruct (loop_images s) as [imgs| |e]; [by eexists|done|].
  destruct Hs as [Hs _]. by rewrite Hs in Hc.
Qed.

Lemma trace_gather_main s e :
  iconset_dir ∈ dirs s → e ∈ trace (gather s) → e ∈ trace (main s).
Proof.
  intros Hd He. destruct (main_cases s); cbn [trace];
    [by exfalso|done|apply elem_of_app; by left..].
Qed.
End found_facts.

Lemma save_request_spec images req :
  save_request images = Some req →
  sizes req = map img_size images ∧
  written_images req = sorted_reverse pixel_area images.
Proof.
  intros Hreq. pose proof (save_request_nil_inv _ _ Hreq) as Hne.
  destruct images as [|img images]; [done|].
  destruct (save_request_cons img images) as (first & others & Hs & Hr).
  rewrite Hr in Hreq. injection Hreq as <-. clear Hr. split; [done|].
  rewrite Hs. unfold written_images. cbn [primary append_images].
  case_bool_decide as Hlen; simpl; [done|].
  destruct others; [done|]. simpl in Hlen. lia.
Qed.

Section fatal_errors.
Context `{Pillow}.

Lemma loop_images_returns s :
  (∀ name, name ∈ png_files → present s name →
     is_Some (image_at s (in_iconset name))) →
  loop_images s = Ret (found s png_files).
Proof.
  intros Hall. unfold loop_images. by rewrite (collect_returns _ _ _ Hall).
Qed.

Lemma nothing_present_nothing_collected s :
  present_names s = [] → collected s = Ret [].
Proof.
  intros Hnone.
  assert (∀ name, name ∈ png_files → ¬ present s name) as Hn.
  { intros name Hin Hp.
    assert (name ∈ present_names s) as Hin' by by apply elem_of_present_names.
    rewrite Hnone in Hin'. by apply elem_of_nil in Hin'. }
  assert (loop_images s = Ret (found s png_files)) as Hl.
  { apply loop_images_returns. intros name Hin Hp. by destruct (Hn name). }
  destruct (collected_eq _ _ Hl) as [Himgs Hc].
  unfold images_of_present in Himgs. rewrite Hnone in Himgs.
  apply Forall2_nil_inv_l in Himgs. rewrite Himgs in Hc.
  rewrite image_at_missing in Hc by (apply Hn; do 4 right; by left).
  by destruct Hc.
Qed.

Lemma nothing_present_warnings s name :
  present_names s = [] → name ∈ png_files → warning name ∈ trace (gather s).
Proof.
  intros Hnone Hin.
  assert (∀ name, name ∈ png_files → ¬ present s name) as Hn.
  { intros n Hn Hp.
    assert (n ∈ present_names s) as Hin' by by apply elem_of_present_names.
    rewrite Hnone in Hin'. by apply elem_of_nil in Hin'. }
  assert (loop_images s = Ret (found s png_files)) as Hl.
  { apply loop_images_returns. intros n Hi Hp. by destruct (Hn n). }
  destruct (gather_spec s) as (_ & _ & Hs). rewrite Hl in Hs.
  destruct Hs as (_ & Hw & _). by apply Hw, Hn.
Qed.

(** C2. When the source directory phraims.iconset does not exist, [main]
    writes one error message to standard error and exits with status 1.
    Nothing else happened: no image was opened, neither [os.makedirs] nor
    [save] was called, and the file system is exactly as it was. *)
Theorem missing_iconset_is_fatal s :
  isdir s iconset_dir = false →
  trace (main s) =
    [Print stderr "Error: phraims.iconset directory not found"] ∧
  outcome (main s) = SysExit 1 ∧
  exit_status (outcome (main s)) = 1 ∧
  final (main s) = s ∧
  (∀ e, e ∈ trace (main s) → is_open e = false ∧ is_write e = false).
Proof.
  intros Hd%isdir_false. rewrite (main_no_iconset _ Hd).
  cbn [outcome final trace exit_status]. split_and!; try done.
  intros e He. by inv_elem He; subst.
Qed.

(** C3. When the source directory exists but none of the five expected
    file names is present in it, whatever else the file system holds,
    [main] warns about each of the five, writes the error
    "No PNG images found to convert" to standard error and exits with
    status 1. *)
Theorem no_expected_file_is_fatal s :
  isdir s iconset_dir = true →
  present_names s = [] →
  outcome (main s) = SysExit 1 ∧
  exit_status (outcome (main s)) = 1 ∧
  Print stderr "Error: No PNG images found to convert" ∈ trace (main s) ∧
  (∀ name, name ∈ png_files → warning name ∈ trace (main s)).
Proof.
  intros Hd%isdir_true Hnone.
  pose proof (nothing_present_nothing_collected _ Hnone) as Hc.
  assert (∀ name, name ∈ png_files → warning name ∈ trace (main s)) as Hw.
  { intros name Hin. apply trace_gather_main; [done|].
    by apply nothing_present_warnings. }
  destruct (main_cases s) as [Hd'|e Hd' Hc'|Hd' Hc'
                             |images req e s' t Hd' Hc' Hr Hw'
                             |images req bytes Hd' Hc' Hr Ho He];
    cbn [outcome final trace exit_status]; try done; try congruence.
  - split_and!; try done. apply elem_of_app. right. by left.
  - rewrite Hc in Hc'. injection Hc' as <-. by apply save_request_nil_inv in Hr.
  - rewrite Hc in Hc'. injection Hc' as <-. by apply save_request_nil_inv in Hr.
Qed.

(** C8. In both fatal cases that precede the writing (the source directory
    is missing, or none of the expected files is found) [main] exits with
    status 1 without having called [os.makedirs] or [save]: the trace has
    no such event, and the file system, in particular the resources
    directory and the output file, is unchanged. *)
Theorem fatal_errors_write_nothing s :
  isdir s iconset_dir = false ∨ present_names s = [] →
  outcome (main s) = SysExit 1 ∧
  exit_status (outcome (main s)) = 1 ∧
  (∀ e, e ∈ trace (main s) → is_write e = false) ∧
  final (main s) = s ∧
  dirs (final (main s)) = dirs s ∧
  files (final (main s)) !! output_ico = files s !! output_ico.
Proof.
  intros Hfatal.
  destruct (decide (iconset_dir ∈ dirs s)) as [Hd|Hd].
  - destruct Hfatal as [Hf%isdir_false|Hnone]; [done|].
    pose proof (nothing_present_nothing_collected _ Hnone) as Hc.
    destruct (main_cases s) as [Hd'|e Hd' Hc'|Hd' Hc'
                               |images req e s' t Hd' Hc' Hr Hw'
                               |images req bytes Hd' Hc' Hr Ho He];
      cbn [outcome final trace exit_status]; try done; try congruence.
    + split_and!; try done.
      intros e [He|He]%elem_of_app; [by apply gather_quiet in He|].
      by inv_elem He; subst.
    + rewrite Hc in Hc'. injection Hc' as <-. by apply save_request_nil_inv in Hr.
    + rewrite Hc in Hc'. injection Hc' as <-. by apply save_request_nil_inv in Hr.
  - rewrite (main_no_iconset _ Hd). cbn [outcome final trace exit_status].
    split_and!; try done. intros e He. by inv_elem He; subst.
Qed.
End fatal_errors.

Lemma missing_iconset_is_fatal_witness :
  isdir Demo.no_iconset iconset_dir = false ∧
  exit_status (outcome (main (H := Demo.pillow) Demo.no_iconset)) = 1 ∧
  final (main (H := Demo.pillow) Demo.no_iconset) = Demo.no_iconset.
Proof.
  assert (isdir Demo.no_iconset iconset_dir = false) as Hd by (vm_compute; reflexivity).
  destruct (missing_iconset_is_fatal (H := Demo.pillow) Demo.no_iconset Hd)
    as (_ & _ & Hexit & Hfinal & _).
  exact (conj Hd (conj Hexit Hfinal)).
Defined.

Lemma no_expected_file_is_fatal_witness :
  isdir Demo.unrelated iconset_dir = true ∧
  present_names Demo.unrelated = [] ∧
  exit_status (outcome (main (H := Demo.pillow) Demo.unrelated)) = 1.
Proof.
  assert (isdir Demo.unrelated iconset_dir = true) as Hd by (vm_compute; reflexivity).
  assert (present_names Demo.unrelated = []) as Hn by (vm_compute; reflexivity).
  destruct (no_expected_file_is_fatal (H := Demo.pillow) Demo.unrelated Hd Hn)
    as (_ & Hexit & _).
  exact (conj Hd (conj Hn Hexit)).
Defined.

Lemma fatal_errors_write_nothing_witness :
  present_names Demo.unrelated = [] ∧
  final (main (H := Demo.pillow) Demo.unrelated) = Demo.unrelated.
Proof.
  assert (present_names Demo.unrelated = []) as Hn by (vm_compute; reflexivity).
  destruct (fatal_errors_write_nothing (H := Demo.pillow) Demo.unrelated (or_intror Hn))
    as (_ & _ & _ & Hfinal & _).
  exact (conj Hn Hfinal).
Defined.

(** ** Successful runs *)

Section successful_runs.
Context `{Pillow}.

(** Totality.  With a source directory in which at least one expected file is
    present and every present one opens as an image, a 256x256 file that
    decodes, a place for the output that is free, and an encoder that accepts
    what it is given, [main] saves the icon and the exit status is 0. *)
Lemma readable_iconset_is_written s :
  isdir s iconset_dir = true →
  present_names s ≠ [] →
  (∀ name, name ∈ png_files → present s name →
     is_Some (image_at s (in_iconset name))) →
  (∀ img, image_at s (in_iconset "icon_256x256.png") = Some img →
     load_error img = None) →
  "resources" ∈ dirs s ∨ files s !! "resources" = None →
  output_ico ∉ dirs s →
  (∀ req, is_Some (ico_encode req)) →
  ∃ req bytes,
    saved (main s) req ∧
    ico_encode req = Some bytes ∧
    files (final (main s)) !! output_ico = Some bytes ∧
    exit_status (outcome (main s)) = 0.
Proof.
  intros Hd%isdir_true Hne Hall Hload Hres Ho Henc.
  pose proof (loop_images_returns _ Hall) as Hl.
  destruct (collected_eq _ _ Hl) as [Himgs Hc].
  assert (∃ images, collected s = Ret images ∧ images ≠ []) as (images & Hc' & Hne').
  { destruct (image_at s (in_iconset "icon_256x256.png")) as [img|].
    - rewrite (Hload img eq_refl) in Hc.
      eexists. split; [exact Hc|]. unfold list_insert_at.
      intros [_ ?]%app_eq_nil. done.
    - destruct Hc as [_ Hc]. eexists. split; [exact Hc|].
      intros Hnil. rewrite Hnil in Himgs.
      apply Forall2_nil_inv_r in Himgs. done. }
  destruct (save_request_is_Some _ Hne') as [req Hreq].
  destruct (Henc req) as [bytes Hbytes].
  destruct (main_succeeds s images req bytes Hd Hc' Hreq Hres Ho Hbytes)
    as (Hs & Hout & Hfile).
  exists req, bytes. rewrite Hout. done.
Qed.

(** C1. When the source directory exists, all five expected files are
    present and the save succeeds, the [sizes] handed to the encoder have
    exactly six entries (those of the five opened images, with the 48x48 of
    the synthesized image in third place), the output file holds what the
    encoder produced for that request, and the process exits with status
    0. *)
Theorem full_iconset_six_sizes s req :
  isdir s iconset_dir = true →
  present_names s = png_files →
  saved (main s) req →
  ∃ i16 i32 i64 i128 i256 bytes,
    Forall2 (λ name img, image_at s (in_iconset name) = Some img)
            png_files [i16; i32; i64; i128; i256] ∧
    collected s = Ret [i16; i32; resized_48 i256; i64; i128; i256] ∧
    sizes req = [ img_size i16; img_size i32; (48, 48);
                  img_size i64; img_size i128; img_size i256 ] ∧
    length (sizes req) = 6%nat ∧
    ico_encode req = Some bytes ∧
    files (final (main s)) !! output_ico = Some bytes ∧
    outcome (main s) = Ret tt ∧
    exit_status (outcome (main s)) = 0.
Proof.
  intros _ Hall Hsaved.
  destruct (main_saved _ _ Hsaved) as (_ & images & bytes & Hc & Hr & _ & He & Hm).
  destruct (collected_Ret_inv _ _ Hc) as [imgs Hl].
  destruct (collected_Ret_eq _ _ _ Hl Hc) as [Himgs Hc'].
  unfold images_of_present in Himgs. rewrite Hall in Himgs.
  pose proof Himgs as HF. unfold png_files in HF.
  apply Forall2_cons_inv_l in HF as (i16 & k1 & H16 & HF & ->).
  apply Forall2_cons_inv_l in HF as (i32 & k2 & H32 & HF & ->).
  apply Forall2_cons_inv_l in HF as (i64 & k3 & H64 & HF & ->).
  apply Forall2_cons_inv_l in HF as (i128 & k4 & H128 & HF & ->).
  apply Forall2_cons_inv_l in HF as (i256 & k5 & H256 & HF & ->).
  apply Forall2_nil_inv_l in HF as ->.
  rewrite H256 in Hc'. destruct Hc' as [_ ->].
  apply save_request_spec in Hr as [Hsz _].
  exists i16, i32, i64, i128, i256, bytes.
  rewrite Hm. cbn [outcome final trace files exit_status].
  split_and!; try done.
  - by rewrite Hsz.
  - apply lookup_insert_eq.
Qed.

Lemma main_collected_raise s e :
  iconset_dir ∈ dirs s → collected s = Raise e →
  main s = Run (Raise e) s (trace (gather s)).
Proof.
  intros Hd Hc. unfold collected in Hc.
  rewrite (main_iconset _ Hd), bind_run, Hc. by rewrite gather_final.
Qed.

(** C9, as the code has it.  When icon_256x256.png is the only expected file
    present, the loop leaves a one-element list, and [insert(2, ...)] puts
    the synthesized 48x48 at its end: the list of line 57 has these two
    elements when the resize succeeds, and when the file does not decode the
    run ends at the resize with the decoder's exception.  If the save
    succeeds, [main] exits with status 0 with exactly two entries in
    [sizes].  The image of the 256x256 file is the one [save] is called on
    (the first written) when its area is at least 48 times 48, as it is for
    a file that is 256 by 256; for a smaller file the synthesized 48x48 is
    first. *)
Theorem only_256_two_sizes s :
  isdir s iconset_dir = true →
  present_names s = ["icon_256x256.png"] →
  (∀ imgs, loop_images s = Ret imgs →
     ∃ i256,
       image_at s (in_iconset "icon_256x256.png") = Some i256 ∧
       imgs = [i256] ∧ length imgs = 1%nat ∧
       list_insert_at 2 (resized_48 i256) imgs = imgs ++ [resized_48 i256] ∧
       (load_error i256 = None →
          collected s = Ret [i256; resized_48 i256]) ∧
       (∀ e, load_error i256 = Some e →
          collected s = Raise e ∧ outcome (main s) = Raise e)) ∧
  (∀ req, saved (main s) req →
     ∃ i256,
       image_at s (in_iconset "icon_256x256.png") = Some i256 ∧
       load_error i256 = None ∧
       collected s = Ret [i256; resized_48 i256] ∧
       sizes req = [img_size i256; (48, 48)] ∧
       length (sizes req) = 2%nat ∧
       outcome (main s) = Ret tt ∧
       exit_status (outcome (main s)) = 0 ∧
       (img_size i256 = (256, 256) →
          primary req = i256 ∧
          append_images req = Some [resized_48 i256]) ∧
       (48 * 48 ≤ pixel_area i256 →
          primary req = i256 ∧
          append_images req = Some [resized_48 i256]) ∧
       (pixel_area i256 < 48 * 48 →
          primary req = resized_48 i256 ∧
          append_images req = Some [i256])).
Proof.
  intros Hd%isdir_true Honly.
  assert (∀ imgs, loop_images s = Ret imgs →
     ∃ i256,
       image_at s (in_iconset "icon_256x256.png") = Some i256 ∧
       imgs = [i256] ∧ length imgs = 1%nat ∧
       list_insert_at 2 (resized_48 i256) imgs = imgs ++ [resized_48 i256] ∧
       (load_error i256 = None →
          collected s = Ret [i256; resized_48 i256]) ∧
       (∀ e, load_error i256 = Some e →
          collected s = Raise e ∧ outcome (main s) = Raise e)) as Hloop.
  { intros imgs Hl. destruct (collected_eq _ _ Hl) as [Himgs Hc].
    unfold images_of_present in Himgs. rewrite Honly in Himgs.
    apply Forall2_cons_inv_l in Himgs as (i256 & k & H256 & HF & ->).
    apply Forall2_nil_inv_l in HF as ->.
    rewrite H256 in Hc. exists i256. split_and!; try done.
    - intros Hload. by rewrite Hload in Hc.
    - intros e Hload. rewrite Hload in Hc. split; [done|].
      by rewrite (main_collected_raise _ _ Hd Hc). }
  split; [done|].
  intros req Hsaved.
  destruct (main_saved _ _ Hsaved) as (_ & images & bytes & Hc & Hr & _ & He & Hm).
  destruct (collected_Ret_inv _ _ Hc) as [imgs Hl].
  destruct (Hloop _ Hl) as (i256 & H256 & -> & _ & _ & Hok & _).
  destruct (collected_Ret_eq _ _ _ Hl Hc) as [_ Hc'].
  rewrite H256 in Hc'. destruct Hc' as [Hload ->].
  exists i256. rewrite Hm. cbn [outcome final trace files exit_status].
  pose proof (save_request_spec _ _ Hr) as [Hsz Hw].
  assert (48 * 48 ≤ pixel_area i256 →
          primary req = i256 ∧ append_images req = Some [resized_48 i256]) as Hfirst.
  { intros Harea. clear Hsz Hw. unfold save_request in Hr.
    cbn [list_insert_at take drop app sorted_reverse foldr insert_desc] in Hr.
    change (pixel_area (resized_48 i256)) with (48 * 48) in Hr.
    rewrite (proj2 (Z.leb_le _ _) Harea) in Hr.
    cbn [length] in Hr. rewrite bool_decide_eq_true_2 in Hr by lia.
    by injection Hr as <-. }
  assert (pixel_area i256 < 48 * 48 →
          primary req = resized_48 i256 ∧ append_images req = Some [i256]) as Hlast.
  { intros Harea. clear Hsz Hw Hfirst. unfold save_request in Hr.
    cbn [list_insert_at take drop app sorted_reverse foldr insert_desc] in Hr.
    change (pixel_area (resized_48 i256)) with (48 * 48) in Hr.
    rewrite (proj2 (Z.leb_gt _ _) Harea) in Hr.
    cbn [length] in Hr. rewrite bool_decide_eq_true_2 in Hr by lia.
    by injection Hr as <-. }
  split_and!; try done; try (by rewrite Hsz).
  intros H256sz. apply Hfirst. unfold pixel_area. rewrite H256sz. simpl. lia.
Qed.
End successful_runs.


Lemma full_iconset_six_sizes_witness :
  saved (main (H := Demo.pillow) Demo.full) Demo.full_request ∧
  length (sizes Demo.full_request) = 6%nat ∧
  exit_status (outcome (main (H := Demo.pillow) Demo.full)) = 0.
Proof.
  assert (isdir Demo.full iconset_dir = true) as Hd by (vm_compute; reflexivity).
  assert (present_names Demo.full = png_files) as Hp by (vm_compute; reflexivity).
  assert (saved (main (H := Demo.pillow) Demo.full) Demo.full_request) as Hs
    by (unfold saved; vm_compute; find_event).
  destruct (full_iconset_six_sizes (H := Demo.pillow) Demo.full _ Hd Hp Hs)
    as (? & ? & ? & ? & ? & ? & _ & _ & _ & Hlen & _ & _ & _ & Hexit).
  exact (conj Hs (conj Hlen Hexit)).
Defined.

Lemma only_256_two_sizes_witness :
  saved (main (H := Demo.pillow) Demo.only_256) Demo.only_256_request ∧
  collected (H := Demo.pillow) Demo.only_256
    = Ret [Demo.img256; resized_48 Demo.img256] ∧
  exit_status (outcome (main (H := Demo.pillow) Demo.only_256)) = 0.
Proof.
  assert (isdir Demo.only_256 iconset_dir = true) as Hd by (vm_compute; reflexivity).
  assert (present_names Demo.only_256 = ["icon_256x256.png"]) as Hp
    by (vm_compute; reflexivity).
  assert (saved (main (H := Demo.pillow) Demo.only_256) Demo.only_256_request) as Hs
    by (unfold saved; vm_compute; find_event).
  destruct (only_256_two_sizes (H := Demo.pillow) Demo.only_256 Hd Hp) as [_ Hsave].
  destruct (Hsave _ Hs) as (i256 & H256 & _ & Hc & _ & _ & _ & Hexit & _).
  assert (i256 = Demo.img256) as ->
    by (vm_compute in H256; injection H256 as <-; reflexivity).
  exact (conj Hs (conj Hc Hexit)).
Defined.

(** ** The synthesized 48x48 entry *)

(** C9, as the claim words it, fails for a small file: with an
    icon_256x256.png that is 8 by 8 the only expected file, the run saves and
    the first image written is the synthesized 48x48, not the image of the
    file. *)
Lemma small_256_file_is_not_first :
  isdir Cases.small_256 iconset_dir = true ∧
  present_names Cases.small_256 = ["icon_256x256.png"] ∧
  image_at (H := Demo.pillow) Cases.small_256 (in_iconset "icon_256x256.png")
    = Some Cases.img8 ∧
  saved (main (H := Demo.pillow) Cases.small_256) Cases.small_256_request ∧
  written_images Cases.small_256_request = [resized_48 Cases.img8; Cases.img8] ∧
  primary Cases.small_256_request ≠ Cases.img8.
Proof.
  split_and!; try (by vm_compute).
  unfold saved. vm_compute. find_event.
Qed.

Lemma list_insert_at_lookup {A} (i : nat) (x : A) (l : list A) :
  list_insert_at i x l !! Nat.min i (length l) = Some x.
Proof.
  unfold list_insert_at.
  rewrite lookup_app_r by (rewrite length_take; lia).
  rewrite length_take, Nat.sub_diag. done.
Qed.

Section synthesized.
Context `{Pillow}.

Lemma gather_no_resize s e :
  ¬ present s "icon_256x256.png" → e ∈ trace (gather s) → is_resize e = false.
Proof.
  intros Hn. unfold gather. rewrite bind_run.
  destruct (collect_spec png_files [] s) as (Hf & Hq & _).
  assert (∀ e, e ∈ trace (collect png_files [] s) → is_resize e = false) as Hq'.
  { intros e' He'. by destruct (elem_of_quiet _ _ _ Hq He'). }
  destruct (outcome (collect png_files [] s)); cbn [trace]; try apply Hq'.
  rewrite Hf, (generate_48_missing _ _ Hn). cbn [trace].
  rewrite app_nil_r. apply Hq'.
Qed.

(** Whatever [main] does outside the reading half is a print, a
    [makedirs] or a [save]. *)
Lemma main_trace_inv s e :
  e ∈ trace (main s) →
  (iconset_dir ∈ dirs s ∧ e ∈ trace (gather s)) ∨
  (is_resize e = false ∧ is_open e = false).
Proof.
  intros He.
  destruct (main_cases s) as [Hd|e' Hd Hc|Hd Hc|images req e' s' t Hd Hc Hr Hw
                             |images req bytes Hd Hc Hr Ho Henc];
    cbn [trace] in He.
  - right. by inv_elem He; subst.
  - by left.
  - apply elem_of_app in He as [He|He]; [by left|].
    right. by inv_elem He; subst.
  - apply elem_of_app in He as [He|He]; [by left|].
    right. inversion Hw; subst; by inv_elem He; subst.
  - apply elem_of_app in He as [He|He]; [by left|].
    right. unfold success_report in He. simpl in He. by inv_elem He; subst.
Qed.

(** C4. When icon_256x256.png is absent no resize is ever performed, and
    the list handed on at line 57 is the list the loop left: the opened
    images of the present expected files, one for one and in order.  If
    moreover some expected file is present and the save succeeds, [main]
    returns and the process exits with status 0.  An expected file that is
    missing makes its iteration print one warning to standard error and
    leave the list as it was, and the loop goes on: once the loop is left,
    the warning of every missing file is in the trace. *)
Theorem missing_256_no_48 s :
  ¬ present s "icon_256x256.png" →
  (∀ e, e ∈ trace (main s) → is_resize e = false) ∧
  (∀ imgs, loop_images s = Ret imgs →
     images_of_present s imgs ∧ collected s = Ret imgs) ∧
  (∀ req, present_names s ≠ [] → saved (main s) req →
     outcome (main s) = Ret tt ∧
     exit_status (outcome (main s)) = 0 ∧
     ∃ imgs, images_of_present s imgs ∧ collected s = Ret imgs ∧
             sizes req = map img_size imgs) ∧
  (∀ name images, ¬ present s name →
     collect_one images name s = Run (Ret images) s [warning name]) ∧
  (∀ name imgs, isdir s iconset_dir = true → loop_images s = Ret imgs →
     name ∈ png_files → ¬ present s name → warning name ∈ trace (main s)).
Proof.
  intros Hn.
  assert (∀ imgs, loop_images s = Ret imgs →
            images_of_present s imgs ∧ collected s = Ret imgs) as Hloop.
  { intros imgs Hl. destruct (collected_eq _ _ Hl) as [Himgs Hc].
    rewrite (image_at_missing _ _ Hn) in Hc. by destruct Hc. }
  split_and!; [|done| | |].
  - intros e [[_ He]|[? _]]%main_trace_inv; [|done].
    by apply gather_no_resize in He.
  - intros req _ Hsaved.
    destruct (main_saved _ _ Hsaved)
      as (_ & images & bytes & Hc & Hr & _ & He & Hm).
    destruct (collected_Ret_inv _ _ Hc) as [imgs Hl].
    destruct (Hloop _ Hl) as [Himgs Hc'].
    rewrite Hc in Hc'. injection Hc' as ->.
    rewrite Hm. cbn [outcome exit_status]. split_and!; try done.
    exists imgs. split_and!; try done. by apply save_request_spec in Hr as [? _].
  - intros name images. apply collect_one_missing.
  - intros name imgs Hd%isdir_true Hl Hin Hmiss.
    apply trace_gather_main; [done|].
    destruct (gather_spec s) as (_ & _ & Hs). rewrite Hl in Hs.
    destruct Hs as (_ & Hw & _). by apply Hw.
Qed.

(** C5, as the code has it.  When icon_256x256.png is present and the loop
    has left the list [imgs], [main] resizes the image of that file to 48x48
    with LANCZOS.  When the resize succeeds the result is inserted with
    [insert(2, ...)]: it lands at index 2 when the loop found at least two
    files, and at the end of the list (index 1) when icon_256x256.png is the
    only one found.  When the file does not decode, the resize raises and the
    run ends there, with nothing written. *)
Theorem generate_48_inserted s imgs :
  isdir s iconset_dir = true →
  present s "icon_256x256.png" →
  loop_images s = Ret imgs →
  ∃ i256,
    image_at s (in_iconset "icon_256x256.png") = Some i256 ∧
    length imgs = length (present_names s) ∧
    (1 ≤ length imgs)%nat ∧
    (load_error i256 = None →
       ImageResize i256 (48, 48) LANCZOS true ∈ trace (main s) ∧
       collected s
         = Ret (take 2 imgs ++ Resized i256 (48, 48) LANCZOS :: drop 2 imgs) ∧
       (take 2 imgs ++ Resized i256 (48, 48) LANCZOS :: drop 2 imgs)
         !! Nat.min 2 (length imgs) = Some (Resized i256 (48, 48) LANCZOS) ∧
       (length imgs = 1%nat →
          collected s = Ret (imgs ++ [Resized i256 (48, 48) LANCZOS]))) ∧
    (∀ e, load_error i256 = Some e →
       ImageResize i256 (48, 48) LANCZOS false ∈ trace (main s) ∧
       collected s = Raise e ∧
       outcome (main s) = Raise e ∧
       exit_status (outcome (main s)) = 1 ∧
       final (main s) = s).
Proof.
  intros Hd%isdir_true Hp Hl.
  destruct (collected_eq _ _ Hl) as [Himgs Hc].
  destruct (gather_spec s) as (_ & _ & Hs). rewrite Hl in Hs.
  destruct Hs as (_ & _ & Hall & Hs).
  destruct (Hall "icon_256x256.png") as [i256 H256];
    [do 4 right; by left|done|].
  rewrite H256 in Hc, Hs. exists i256.
  assert (length imgs = length (present_names s)) as Hlen
    by (symmetry; by eapply Forall2_length).
  assert (1 ≤ length imgs)%nat as Hpos.
  { rewrite Hlen.
    assert ("icon_256x256.png" ∈ present_names s) as Hin.
    { apply elem_of_present_names. split; [do 4 right; by left|done]. }
    destruct (present_names s); [by apply elem_of_nil in Hin|simpl; lia]. }
  split_and!; try done.
  - intros Hload. rewrite Hload in Hc, Hs. split_and!; try done.
    + apply trace_gather_main; [done|]. rewrite Hs. cbn [trace].
      apply elem_of_app. right. right. by left.
    + apply (list_insert_at_lookup 2).
    + intros Hone. rewrite Hc. f_equal.
      destruct imgs as [|? [|? ?]]; simpl in Hone; try lia. done.
  - intros e Hload. rewrite Hload in Hc, Hs.
    rewrite (main_collected_raise _ _ Hd Hc), Hs.
    cbn [outcome final trace exit_status]. split_and!; try done.
    apply elem_of_app. right. right. by left.
Qed.
End synthesized.

(** C5, as the claim words it, fails: with icon_256x256.png the only file
    found, the list at line 57 has two elements, the synthesized 48x48 is at
    index 1 and there is nothing at index 2. *)
Lemma generate_48_not_at_index_2 :
  isdir Demo.only_256 iconset_dir = true ∧
  present Demo.only_256 "icon_256x256.png" ∧
  collected (H := Demo.pillow) Demo.only_256
    = Ret [Demo.img256; Resized Demo.img256 (48, 48) LANCZOS] ∧
  [Demo.img256; Resized Demo.img256 (48, 48) LANCZOS] !! 2%nat = None ∧
  [Demo.img256; Resized Demo.img256 (48, 48) LANCZOS] !! 1%nat
    = Some (Resized Demo.img256 (48, 48) LANCZOS).
Proof. split_and!; by vm_compute. Qed.

Lemma missing_256_no_48_witness :
  (¬ present Demo.without_256 "icon_256x256.png") ∧
  saved (main (H := Demo.pillow) Demo.without_256) Demo.without_256_request ∧
  collected (H := Demo.pillow) Demo.without_256 = Ret [Demo.img16; Demo.img128] ∧
  exit_status (outcome (main (H := Demo.pillow) Demo.without_256)) = 0.
Proof.
  assert (¬ present Demo.without_256 "icon_256x256.png") as Hn
    by (unfold present; vm_compute; discriminate).
  assert (present_names Demo.without_256 ≠ []) as Hne by (vm_compute; discriminate).
  assert (saved (main (H := Demo.pillow) Demo.without_256) Demo.without_256_request)
    as Hs by (unfold saved; vm_compute; find_event).
  destruct (missing_256_no_48 (H := Demo.pillow) Demo.without_256 Hn)
    as (_ & Hloop & Hsave & _).
  destruct (Hsave _ Hne Hs) as (_ & Hexit & _).
  destruct (Hloop [Demo.img16; Demo.img128]) as [_ Hc]; [by vm_compute|].
  exact (conj Hn (conj Hs (conj Hc Hexit))).
Defined.

Lemma generate_48_inserted_witness :
  ∃ i256,
    image_at (H := Demo.pillow) Demo.full (in_iconset "icon_256x256.png") = Some i256 ∧
    collected (H := Demo.pillow) Demo.full
    = Ret (take 2 [Demo.img16; Demo.img32; Demo.img64; Demo.img128; Demo.img256]
           ++ Resized i256 (48, 48) LANCZOS
           :: drop 2 [Demo.img16; Demo.img32; Demo.img64; Demo.img128; Demo.img256]).
Proof.
  assert (isdir Demo.full iconset_dir = true) as Hd by (vm_compute; reflexivity).
  assert (present Demo.full "icon_256x256.png") as Hp by (vm_compute; reflexivity).
  assert (loop_images (H := Demo.pillow) Demo.full
          = Ret [Demo.img16; Demo.img32; Demo.img64; Demo.img128; Demo.img256]) as Hl
    by (vm_compute; reflexivity).
  destruct (generate_48_inserted (H := Demo.pillow) Demo.full _ Hd Hp Hl)
    as (i256 & H256 & _ & _ & Hok & _).
  assert (load_error (H := Demo.pillow) i256 = None) as Hload
    by (vm_compute in H256; injection H256 as <-; reflexivity).
  destruct (Hok Hload) as (_ & Hc & _).
  exists i256. exact (conj H256 Hc).
Defined.

(** ** The order of the images and the [sizes] list *)

Lemma descending_head {A} (key : A → Z) (x : A) (l : list A) :
  descending key (x :: l) → ∀ y, y ∈ x :: l → key y ≤ key x.
Proof.
  intros Hd y [->|Hin]%elem_of_cons; [lia|].
  apply StronglySorted_inv in Hd as [_ Hall].
  by apply (elem_of_quiet _ _ _ Hall).
Qed.

Lemma descending_adjacent {A} (key : A → Z) (l : list A) (k : nat) (a b : A) :
  descending key l → l !! k = Some a → l !! S k = Some b → key b ≤ key a.
Proof.
  intros Hd. revert k. induction Hd as [|x l Hd IH Hall]; intros k Ha Hb; [done|].
  destruct k as [|k]; simpl in *.
  - injection Ha as ->. apply (elem_of_quiet _ _ _ Hall).
    apply list_elem_of_lookup. by exists 0%nat.
  - by apply (IH k).
Qed.

Lemma save_request_order (images : list image) :
  images ≠ [] →
  ∃ req,
    save_request images = Some req ∧
    written_images req = sorted_reverse pixel_area images ∧
    written_images req ≡ₚ images ∧
    (∀ img, img ∈ images → pixel_area img ≤ pixel_area (primary req)) ∧
    descending pixel_area (written_images req) ∧
    (∀ (k : nat) a b,
       written_images req !! k = Some a →
       written_images req !! S k = Some b →
       pixel_area b ≤ pixel_area a).
Proof.
  intros Hne. destruct (save_request_is_Some _ Hne) as [req Hreq].
  exists req. destruct (save_request_spec _ _ Hreq) as [_ Hw].
  pose proof (sorted_reverse_descending pixel_area images) as Hd.
  pose proof (sorted_reverse_perm pixel_area images) as Hp.
  rewrite <- Hw in Hd, Hp. split_and!; try done.
  - intros img Hin. apply (descending_head pixel_area _ _ Hd).
    fold (written_images req). by rewrite Hp.
  - intros k a b. by apply descending_adjacent.
Qed.

Section save_call.
Context `{Pillow}.

(** With a non-empty list and a place for the output directory, [main] calls
    [save]. *)
Lemma main_calls_save s images req :
  iconset_dir ∈ dirs s →
  collected s = Ret images →
  save_request images = Some req →
  "resources" ∈ dirs s ∨ files s !! "resources" = None →
  ∃ ok, ImageSave output_ico req ok ∈ trace (main s).
Proof.
  intros Hd Hc Hr Hres.
  destruct (main_cases s) as [Hd'|e Hd' Hc'|Hd' Hc'
                             |images' req' e s' t Hd' Hc' Hr' Hw
                             |images' req' bytes Hd' Hc' Hr' Ho He];
    cbn [trace]; try done; try congruence.
  - rewrite Hc in Hc'. injection Hc' as ->. by apply save_request_nil_inv in Hr.
  - rewrite Hc in Hc'. injection Hc' as <-. rewrite Hr in Hr'. injection Hr' as <-.
    inversion Hw as [Hnd Hf| | |]; subst.
    + destruct Hres as [?|Hnone]; [done|]. rewrite Hnone in Hf. by destruct Hf.
    + exists false. apply elem_of_app. right. right. by left.
    + exists false. apply elem_of_app. right. right. by left.
  - rewrite Hc in Hc'. injection Hc' as <-. rewrite Hr in Hr'. injection Hr' as <-.
    exists true. apply elem_of_app. right. right. by left.
Qed.

(** C6. For every non-empty list of images collected by a run, [main] hands
    the images to the encoder in descending order of pixel area (width
    times height).  Every call of [save] the run makes is made with the
    request built from that list, and the call is made whenever the output
    directory can be created; in that request the image [save] is called
    on, the first written, has maximal pixel area among all collected
    images, every image appended after it has an area less than or equal to
    that of its predecessor, and the images written are a rearrangement of
    the collected ones. *)
Theorem main_saves_largest_first s (images : list image) :
  collected s = Ret images →
  images ≠ [] →
  ∃ req,
    save_request images = Some req ∧
    (∀ path req' ok, ImageSave path req' ok ∈ trace (main s) →
       path = output_ico ∧ req' = req) ∧
    (isdir s iconset_dir = true →
     "resources" ∈ dirs s ∨ files s !! "resources" = None →
     ∃ ok, ImageSave output_ico req ok ∈ trace (main s)) ∧
    written_images req = sorted_reverse pixel_area images ∧
    written_images req ≡ₚ images ∧
    (∀ img, img ∈ images → pixel_area img ≤ pixel_area (primary req)) ∧
    descending pixel_area (written_images req) ∧
    (∀ (k : nat) a b,
       written_images req !! k = Some a →
       written_images req !! S k = Some b →
       pixel_area b ≤ pixel_area a).
Proof.
  intros Hc Hne.
  destruct (save_request_order _ Hne) as (req & Hr & Hw & Hp & Hmax & Hd & Hadj).
  exists req. split_and!; try done.
  - intros path req' ok (-> & images' & Hc' & Hr')%main_save_call.
    rewrite Hc in Hc'. injection Hc' as <-. rewrite Hr in Hr'. by injection Hr' as <-.
  - intros Hdir%isdir_true Hres. by eapply main_calls_save.
Qed.

(** C10. For every non-empty list of images collected by a run, the [sizes]
    list [main] passes to the encoder (every call of [save] is made with this
    request, and the call is made whenever the output directory can be
    created) is computed from the list in the order of collection, before
    sorting; as a multiset it is the multiset of the dimensions of the
    area-sorted images handed over in the same call, so each image's
    dimensions occur in [sizes] once for every occurrence among the images
    written. *)
Theorem main_sizes_match_written s (images : list image) :
  collected s = Ret images →
  images ≠ [] →
  ∃ req,
    save_request images = Some req ∧
    (∀ path req' ok, ImageSave path req' ok ∈ trace (main s) →
       path = output_ico ∧ req' = req) ∧
    (isdir s iconset_dir = true →
     "resources" ∈ dirs s ∨ files s !! "resources" = None →
     ∃ ok, ImageSave output_ico req ok ∈ trace (main s)) ∧
    sizes req = map img_size images ∧
    written_images req = sorted_reverse pixel_area images ∧
    sizes req ≡ₚ map img_size (written_images req) ∧
    list_to_set_disj (sizes req)
      =@{gmultiset dims} list_to_set_disj (map img_size (written_images req)) ∧
    (∀ d : dims,
       multiplicity d (list_to_set_disj (sizes req) : gmultiset dims)
       = multiplicity d
           (list_to_set_disj (map img_size (written_images req)) : gmultiset dims)).
Proof.
  intros Hc Hne. destruct (save_request_is_Some _ Hne) as [req Hr].
  exists req. destruct (save_request_spec _ _ Hr) as [Hsz Hw].
  assert (sizes req ≡ₚ map img_size (written_images req)) as Hperm.
  { rewrite Hsz, Hw. apply Permutation_map. symmetry. apply sorted_reverse_perm. }
  assert (list_to_set_disj (sizes req)
          =@{gmultiset dims} list_to_set_disj (map img_size (written_images req)))
    as Hms by by rewrite Hperm.
  split_and!; try done.
  - intros path req' ok (-> & images' & Hc' & Hr')%main_save_call.
    rewrite Hc in Hc'. injection Hc' as <-. rewrite Hr in Hr'. by injection Hr' as <-.
  - intros Hdir%isdir_true Hres. by eapply main_calls_save.
  - intros d. by rewrite Hms.
Qed.
End save_call.

Lemma main_saves_largest_first_witness :
  collected (H := Demo.pillow) Demo.full
    = Ret [Demo.img16; Demo.img32; resized_48 Demo.img256; Demo.img64;
           Demo.img128; Demo.img256] ∧
  ImageSave output_ico Demo.full_request true
    ∈ trace (main (H := Demo.pillow) Demo.full) ∧
  descending pixel_area (written_images Demo.full_request).
Proof.
  assert (collected (H := Demo.pillow) Demo.full
          = Ret [Demo.img16; Demo.img32; resized_48 Demo.img256; Demo.img64;
                 Demo.img128; Demo.img256]) as Hc by (vm_compute; reflexivity).
  assert ([Demo.img16; Demo.img32; resized_48 Demo.img256; Demo.img64;
           Demo.img128; Demo.img256] ≠ []) as Hne by discriminate.
  assert (ImageSave output_ico Demo.full_request true
            ∈ trace (main (H := Demo.pillow) Demo.full)) as He
    by (vm_compute; find_event).
  destruct (main_saves_largest_first (H := Demo.pillow) _ _ Hc Hne)
    as (req & _ & Hcall & _ & _ & _ & _ & Hd & _).
  destruct (Hcall _ _ _ He) as [_ <-].
  exact (conj Hc (conj He Hd)).
Defined.

Lemma main_sizes_match_written_witness :
  collected (H := Demo.pillow) Demo.full
    = Ret [Demo.img16; Demo.img32; resized_48 Demo.img256; Demo.img64;
           Demo.img128; Demo.img256] ∧
  ImageSave output_ico Demo.full_request true
    ∈ trace (main (H := Demo.pillow) Demo.full) ∧
  sizes Demo.full_request ≡ₚ map img_size (written_images Demo.full_request).
Proof.
  assert (collected (H := Demo.pillow) Demo.full
          = Ret [Demo.img16; Demo.img32; resized_48 Demo.img256; Demo.img64;
                 Demo.img128; Demo.img256]) as Hc by (vm_compute; reflexivity).
  assert ([Demo.img16; Demo.img32; resized_48 Demo.img256; Demo.img64;
           Demo.img128; Demo.img256] ≠ []) as Hne by discriminate.
  assert (ImageSave output_ico Demo.full_request true
            ∈ trace (main (H := Demo.pillow) Demo.full)) as He
    by (vm_compute; find_event).
  destruct (main_sizes_match_written (H := Demo.pillow) _ _ Hc Hne)
    as (req & _ & Hcall & _ & _ & _ & Hp & _).
  destruct (Hcall _ _ _ He) as [_ <-].
  exact (conj Hc (conj He Hp)).
Defined.

(** ** Determinism in the source directory *)

Lemma same_entry_exists s1 s2 path :
  same_entry s1 s2 path → exists_path s1 path = exists_path s2 path.
Proof.
  unfold same_entry, isdir, exists_path. intros [-> ->]. done.
Qed.

Section determinism.
Context `{Pillow}.

Lemma same_entry_image_at s1 s2 path :
  same_entry s1 s2 path → image_at s1 path = image_at s2 path.
Proof. unfold same_entry, isdir, image_at. intros [-> ->]. done. Qed.

Lemma same_entry_open_error s1 s2 path :
  same_entry s1 s2 path → open_error s1 path = open_error s2 path.
Proof. unfold same_entry, isdir, open_error. intros [-> ->]. done. Qed.

Lemma collect_one_eq images name s :
  collect_one images name s =
  if exists_path s (in_iconset name) then
    match image_at s (in_iconset name) with
    | Some img =>
        Run (Ret (images ++ [img])) s
          [ ImageOpen (in_iconset name) (Some img);
            Print stdout ("Added " +:+ name +:+ " (" +:+ show_dims (img_size img) +:+ ")") ]
    | None =>
        Run (Raise (open_error s (in_iconset name))) s
            [ImageOpen (in_iconset name) None]
    end
  else Run (Ret images) s [warning name].
Proof.
  destruct (collect_one_cases images name s)
    as [[Hn ->]|[(img & Himg & Hp & ->)|(Hp & Himg & ->)]].
  - unfold present in Hn. by destruct (exists_path s (in_iconset name)).
  - unfold present in Hp. by rewrite Hp, Himg.
  - unfold present in Hp. by rewrite Hp, Himg.
Qed.

Lemma collect_one_final images name s : final (collect_one images name s) = s.
Proof.
  rewrite collect_one_eq.
  by destruct (exists_path s (in_iconset name)), (image_at s (in_iconset name)).
Qed.

Lemma collect_same names s1 s2 :
  Forall (λ name, same_entry s1 s2 (in_iconset name)) names →
  ∀ images,
    outcome (collect names images s1) = outcome (collect names images s2) ∧
    trace (collect names images s1) = trace (collect names images s2).
Proof.
  induction 1 as [|name names Hname Hnames IH]; intros images; [done|].
  rewrite !collect_cons, !bind_run, !collect_one_final, !collect_one_eq.
  rewrite <- (same_entry_exists _ _ _ Hname), <- (same_entry_image_at _ _ _ Hname),
    <- (same_entry_open_error _ _ _ Hname).
  destruct (exists_path s1 (in_iconset name));
    [destruct (image_at s1 (in_iconset name)) as [img|]|];
    cbn [outcome final trace]; try done.
  - destruct (IH (images ++ [img])) as [-> ->]. done.
  - destruct (IH images) as [-> ->]. done.
Qed.

Lemma generate_48_eq images s :
  generate_48 images s =
  if exists_path s (in_iconset "icon_256x256.png") then
    match image_at s (in_iconset "icon_256x256.png") with
    | Some img =>
        match load_error img with
        | None =>
            Run (Ret (list_insert_at 2 (resized_48 img) images)) s
              [ ImageOpen (in_iconset "icon_256x256.png") (Some img);
                ImageResize img (48, 48) LANCZOS true;
                Print stdout "Generated 48x48 from 256x256" ]
        | Some e =>
            Run (Raise e) s
              [ ImageOpen (in_iconset "icon_256x256.png") (Some img);
                ImageResize img (48, 48) LANCZOS false ]
        end
    | None =>
        Run (Raise (open_error s (in_iconset "icon_256x256.png"))) s
            [ImageOpen (in_iconset "icon_256x256.png") None]
    end
  else Run (Ret images) s [].
Proof.
  destruct (exists_path s (in_iconset "icon_256x256.png")) eqn:Hp.
  - destruct (image_at s (in_iconset "icon_256x256.png")) as [img|] eqn:Himg.
    + destruct (load_error img) as [e|] eqn:Hload.
      * by apply generate_48_unloadable.
      * by apply generate_48_opened.
    + by apply generate_48_unreadable.
  - apply generate_48_missing. unfold present. by rewrite Hp.
Qed.

Lemma gather_same s1 s2 :
  same_iconset s1 s2 →
  collected s1 = collected s2 ∧ trace (gather s1) = trace (gather s2).
Proof.
  intros [_ Hsame]. unfold collected, gather. rewrite !bind_run.
  destruct (collect_same _ _ _ Hsame []) as [Ho Ht]. rewrite <- Ho, <- Ht.
  destruct (outcome (collect png_files [] s1)) as [imgs| |]; try done.
  destruct (collect_spec png_files [] s1) as [-> _].
  destruct (collect_spec png_files [] s2) as [-> _].
  assert (same_entry s1 s2 (in_iconset "icon_256x256.png")) as H256.
  { apply (elem_of_quiet _ _ _ Hsame). do 4 right. by left. }
  rewrite !generate_48_eq.
  rewrite <- (same_entry_exists _ _ _ H256), <- (same_entry_image_at _ _ _ H256),
    <- (same_entry_open_error _ _ _ H256).
  destruct (exists_path s1 (in_iconset "icon_256x256.png")); [|done].
  destruct (image_at s1 (in_iconset "icon_256x256.png")) as [img|]; [|done].
  by destruct (load_error img).
Qed.

End determinism.

(** Running the script a second time: the first run leaves the source
    directory as it was, so the second run saves the same request and leaves
    the file system as the first run left it. *)

Lemma isdir_add_other (d : gset string) f f' path other :
  path ≠ other → isdir (Fs ({[other]} ∪ d) f) path = isdir (Fs d f') path.
Proof.
  intros Hne. unfold isdir. cbn [dirs]. apply bool_decide_ext.
  rewrite elem_of_union, elem_of_singleton. tauto.
Qed.

Lemma same_iconset_after_write s (fl : gmap string (list Byte.byte)) :
  (∀ path, path ≠ output_ico → fl !! path = files s !! path) →
  same_iconset s (Fs ({["resources"]} ∪ dirs s) fl).
Proof.
  intros Hfl. destruct s as [d f]. split.
  - symmetry. by apply isdir_add_other.
  - unfold png_files. repeat constructor; cbn [dirs files].
    all: try (symmetry; by apply isdir_add_other).
    all: symmetry; by apply Hfl.
Qed.

Lemma after_failed_save_other `{Pillow} req path fl other :
  other ≠ path → after_failed_save req path fl !! other = fl !! other.
Proof.
  intros Hne. unfold after_failed_save.
  destruct (save_residue req _); [by apply lookup_insert_ne|by apply lookup_delete_ne].
Qed.

Lemma same_iconset_refl s : same_iconset s s.
Proof. split; [done|]. apply Forall_forall. by intros. Qed.

Section rerun.
Context `{Pillow}.

Lemma main_keeps_iconset s : same_iconset s (final (main s)).
Proof.
  destruct (main_cases s) as [Hd|e' Hd Hc|Hd Hc|images req e' s' t Hd Hc Hr Hw
                             |images req bytes Hd Hc Hr Ho Henc];
    cbn [final]; try apply same_iconset_refl.
  - inversion Hw; subst; try apply same_iconset_refl;
      apply same_iconset_after_write; try done.
    intros path Hne. by apply after_failed_save_other.
  - apply same_iconset_after_write. intros path Hne. by apply lookup_insert_ne.
Qed.

Lemma main_rerun s req :
  saved (main s) req →
  saved (main (final (main s))) req ∧
  final (main (final (main s))) = final (main s) ∧
  outcome (main (final (main s))) = outcome (main s).
Proof.
  intros Hs.
  destruct (main_saved _ _ Hs) as (Hd & images & bytes & Hc & Hr & Ho & He & Hm).
  pose proof (main_keeps_iconset s) as Hsame.
  destruct (gather_same _ _ Hsame) as [Hc' _]. rewrite Hc in Hc'.
  rewrite Hm in Hsame, Hc' |- *. cbn [final outcome] in *.
  set (s' := Fs ({["resources"]} ∪ dirs s) (<[output_ico:=bytes]> (files s))) in *.
  assert (iconset_dir ∈ dirs s') as Hd' by (apply elem_of_union; by right).
  assert (output_ico ∉ dirs s') as Ho'.
  { cbn [s' dirs]. rewrite elem_of_union, elem_of_singleton.
    pose proof output_ico_not_resources. tauto. }
  assert ("resources" ∈ dirs s' ∨ files s' !! "resources" = None) as Hres
    by (left; apply elem_of_union; left; by apply elem_of_singleton).
  destruct (main_succeeds s' images req bytes Hd' (eq_sym Hc') Hr Hres Ho' He)
    as (Hs' & Hout & _).
  split; [done|]. split; [|done].
  destruct (main_saved _ _ Hs') as (_ & images' & bytes' & _ & _ & _ & He' & ->).
  rewrite He in He'. injection He' as <-. cbn [final s' dirs files].
  f_equal.
  - rewrite assoc_L by apply _. by rewrite union_idemp_L.
  - apply insert_insert_eq.
Qed.

(** C7. [main] is a function of the source directory as far as the icon is
    concerned, and running it again changes nothing.  On two file systems
    with the same source directory the collected list (or the exception that
    ends the collecting) is the same and so are the effects performed while
    collecting; when both runs save successfully they hand the encoder the
    same request, leave byte-for-byte the same output file (hence of the same
    size), perform the same effects and end the same way.  In particular a
    run that saved leaves the source directory as it was, and a second run
    on the file system it left saves the same request again and leaves that
    file system unchanged. *)
Theorem same_iconset_same_output s1 s2 :
  same_iconset s1 s2 →
  collected s1 = collected s2 ∧
  trace (gather s1) = trace (gather s2) ∧
  (∀ req1 req2, saved (main s1) req1 → saved (main s2) req2 →
     req1 = req2 ∧
     is_Some (files (final (main s1)) !! output_ico) ∧
     files (final (main s1)) !! output_ico
       = files (final (main s2)) !! output_ico ∧
     outcome (os_path_getsize output_ico (final (main s1)))
       = outcome (os_path_getsize output_ico (final (main s2))) ∧
     trace (main s1) = trace (main s2) ∧
     outcome (main s1) = outcome (main s2) ∧
     exit_status (outcome (main s1)) = 0) ∧
  same_iconset s1 (final (main s1)) ∧
  (∀ req, saved (main s1) req →
     saved (main (final (main s1))) req ∧
     final (main (final (main s1))) = final (main s1) ∧
     outcome (main (final (main s1))) = outcome (main s1)).
Proof.
  intros Hsame. destruct (gather_same _ _ Hsame) as [Hc Ht].
  split_and!; try done.
  - intros req1 req2 Hs1 Hs2.
    destruct (main_saved _ _ Hs1) as (_ & images1 & bytes1 & Hc1 & Hr1 & _ & He1 & ->).
    destruct (main_saved _ _ Hs2) as (_ & images2 & bytes2 & Hc2 & Hr2 & _ & He2 & ->).
    rewrite Hc, Hc2 in Hc1. injection Hc1 as ->.
    rewrite Hr1 in Hr2. injection Hr2 as ->.
    rewrite He1 in He2. injection He2 as ->.
    cbn [outcome final trace files exit_status]. unfold os_path_getsize.
    cbn [files]. rewrite !lookup_insert_eq, Ht. split_and!; try done.
  - apply main_keeps_iconset.
  - apply main_rerun.
Qed.
End rerun.

Lemma same_iconset_same_output_witness :
  same_iconset Demo.full (final (main (H := Demo.pillow) Demo.full)) ∧
  files (final (main (H := Demo.pillow) Demo.full)) !! output_ico
  = files (final (main (H := Demo.pillow)
                   (final (main (H := Demo.pillow) Demo.full)))) !! output_ico.
Proof.
  assert (same_iconset Demo.full (final (main (H := Demo.pillow) Demo.full)))
    as Hsame by (split; [by vm_compute|repeat constructor; by vm_compute]).
  assert (saved (main (H := Demo.pillow) Demo.full) Demo.full_request) as Hs1
    by (unfold saved; vm_compute; find_event).
  assert (saved (main (H := Demo.pillow) (final (main (H := Demo.pillow) Demo.full)))
            Demo.full_request) as Hs2
    by (unfold saved; vm_compute; find_event).
  destruct (same_iconset_same_output (H := Demo.pillow) _ _ Hsame)
    as (_ & _ & Hout & _).
  destruct (Hout _ _ Hs1 Hs2) as (_ & _ & Hfile & _).
  exact (conj Hsame Hfile).
Defined.

(** * Further properties of [main] *)

(** ** How a run can end, and what it leaves behind *)

Section endings.
Context `{Pillow}.

(** X1. The exit status is 0 or 1, and it is 0 exactly when this run's call
    of [save] returned normally; the output file then exists. *)
Theorem exit_zero_iff_saved s :
  (exit_status (outcome (main s)) = 0 ∨ exit_status (outcome (main s)) = 1) ∧
  (exit_status (outcome (main s)) = 0 ↔ ∃ req, saved (main s) req) ∧
  (exit_status (outcome (main s)) = 0 →
     is_Some (files (final (main s)) !! output_ico)).
Proof.
  assert ((∃ req, saved (main s) req) →
          exit_status (outcome (main s)) = 0 ∧
          is_Some (files (final (main s)) !! output_ico)) as Hsaved.
  { intros [req Hs].
    destruct (main_saved _ _ Hs) as (_ & images & bytes & _ & _ & _ & _ & ->).
    cbn [outcome final files exit_status]. split; [done|].
    rewrite lookup_insert_eq. by eexists. }
  destruct (main_cases s) as [Hd|e Hd Hc|Hd Hc|images req e s' t Hd Hc Hr Hw
                             |images req bytes Hd Hc Hr Ho He].
  1-4: cbn [outcome exit_status] in *; split_and!; [by right| |done];
       split; [done|]; by intros [? _]%Hsaved.
  clear Hsaved. cbn [outcome final files exit_status trace].
  split_and!; [by left| |].
  - split; [|done]. intros _. exists req. unfold saved. cbn [trace].
    apply elem_of_app. right. right. by left.
  - intros _. rewrite lookup_insert_eq. by eexists.
Qed.

(** X2. Whatever happens, [main] changes the file system at two places at
    most: the only file whose contents can differ afterwards is the output
    file, no directory disappears, and the only directory that can appear
    is resources. *)
Theorem main_touches_only_its_output s :
  (∀ path, path ≠ output_ico →
     files (final (main s)) !! path = files s !! path) ∧
  (∀ path, path ∈ dirs s → path ∈ dirs (final (main s))) ∧
  (∀ path, path ∈ dirs (final (main s)) → path ∈ dirs s ∨ path = "resources").
Proof.
  destruct (main_cases s) as [Hd|e Hd Hc|Hd Hc|images req e s' t Hd Hc Hr Hw
                             |images req bytes Hd Hc Hr Ho He];
    cbn [final dirs files]; try (split_and!; by auto).
  - inversion Hw; subst; cbn [dirs files]; split_and!; try by auto.
    all: try (intros path Hne; by apply after_failed_save_other).
    all: try (intros path Hp; apply elem_of_union; by right).
    all: intros path [->%elem_of_singleton|Hp]%elem_of_union; by auto.
  - split_and!.
    + intros path Hne. by rewrite lookup_insert_ne.
    + intros path Hp. apply elem_of_union. by right.
    + intros path [->%elem_of_singleton|Hp]%elem_of_union; by auto.
Qed.

(** X3. When [save] is called and fails, because the output path is a
    directory or because the encoder raises, the run ends with that
    exception and exit status 1, nothing is reported as created, and the
    resources directory made just before stays behind. *)
Theorem failed_save_leaves_resources s req :
  ImageSave output_ico req false ∈ trace (main s) →
  ((output_ico ∈ dirs s ∧ outcome (main s) = Raise IsADirectoryError) ∨
   (ico_encode req = None ∧ outcome (main s) = Raise EncoderError)) ∧
  exit_status (outcome (main s)) = 1 ∧
  "resources" ∈ dirs (final (main s)) ∧
  (∀ req', ¬ saved (main s) req').
Proof.
  intros He.
  assert (∀ e, outcome (main s) = Raise e → ∀ req', ¬ saved (main s) req') as Hno.
  { intros e Ho req' Hs.
    destruct (main_saved _ _ Hs) as (_ & ? & ? & _ & _ & _ & _ & Hm).
    rewrite Hm in Ho. discriminate. }
  assert (ImageSave output_ico req false ∉ trace (gather s)) as Hq
    by (by intros ?%gather_quiet).
  destruct (main_cases s) as [Hd|e Hd Hc|Hd Hc|images req' e s' t Hd Hc Hr Hw
                             |images req' bytes Hd Hc Hr Ho Henc];
    cbn [trace] in He.
  - inv_elem He.
  - done.
  - apply elem_of_app in He as [He|He]; [done|]. inv_elem He.
  - apply elem_of_app in He as [He|He]; [done|].
    specialize (Hno e eq_refl).
    inversion Hw; subst; inv_elem He; injection He as ->;
      cbn [outcome final dirs exit_status];
      (split_and!; [by auto|done| |done]);
      apply elem_of_union; left; by apply elem_of_singleton.
  - apply elem_of_app in He as [He|He]; [done|].
    unfold success_report in He. simpl in He. inv_elem He.
Qed.
End endings.

Lemma failed_save_leaves_resources_witness :
  ImageSave output_ico Cases.only_32_request false
    ∈ trace (main (H := Demo.pillow) Cases.output_is_dir) ∧
  exit_status (outcome (main (H := Demo.pillow) Cases.output_is_dir)) = 1 ∧
  "resources" ∈ dirs (final (main (H := Demo.pillow) Cases.output_is_dir)).
Proof.
  assert (ImageSave output_ico Cases.only_32_request false
            ∈ trace (main (H := Demo.pillow) Cases.output_is_dir)) as He
    by (vm_compute; find_event).
  destruct (failed_save_leaves_resources (H := Demo.pillow) _ _ He)
    as (_ & Hexit & Hres & _).
  exact (conj He (conj Hexit Hres)).
Defined.

(** ** Runs that stop before the save *)

Section early_failures.
Context `{Pillow}.

Lemma open_error_present s name :
  present s name → image_at s (in_iconset name) = None →
  (in_iconset name ∈ dirs s ∧
   open_error s (in_iconset name) = IsADirectoryError) ∨
  (∃ data, (in_iconset name ∉ dirs s) ∧
           files s !! in_iconset name = Some data ∧
           image_header data = None ∧
           open_error s (in_iconset name) = open_exception data).
Proof.
  unfold present, exists_path, open_error, image_at. intros Hp Hnone.
  case_bool_decide as Hd; [by left|]. right.
  apply bool_decide_eq_true in Hp as [data Hdata]. rewrite Hdata in Hnone |- *.
  exists data. split_and!; try done. simpl in Hnone.
  by destruct (image_header data).
Qed.

(** The loop stops at the first present file that does not open: the files
    before it were opened or warned about, the files after it are not
    looked at. *)
Lemma collect_raise_first names : ∀ images s e,
  outcome (collect names images s) = Raise e →
  ∃ before bad after,
    names = before ++ bad :: after ∧
    (∀ n, n ∈ before → present s n → is_Some (image_at s (in_iconset n))) ∧
    present s bad ∧
    image_at s (in_iconset bad) = None ∧
    e = open_error s (in_iconset bad) ∧
    (∀ path o, ImageOpen path o ∈ trace (collect names images s) →
       ∃ n, n ∈ before ++ [bad] ∧ path = in_iconset n).
Proof.
  induction names as [|name names IH]; intros images s e; [done|].
  rewrite collect_cons, bind_run.
  destruct (collect_one_cases images name s)
    as [[Hn ->]|[(img & Himg & Hp & ->)|(Hp & Himg & ->)]];
    cbn [outcome final trace].
  - intros (before & bad & after & -> & Hbefore & Hbad & Hnone & -> & Hopen)%IH.
    exists (name :: before), bad, after. split_and!; try done.
    + intros n [->|Hin]%elem_of_cons; [done|by apply Hbefore].
    + intros path o [He|He]%elem_of_app; [inv_elem He|].
      destruct (Hopen _ _ He) as (n & Hin & ->). exists n. split; [by right|done].
  - intros (before & bad & after & -> & Hbefore & Hbad & Hnone & -> & Hopen)%IH.
    exists (name :: before), bad, after. split_and!; try done.
    + intros n [->|Hin]%elem_of_cons; [by eexists|by apply Hbefore].
    + intros path o [He|He]%elem_of_app.
      * inv_elem He. injection He as -> ->. exists name. split; [by left|done].
      * destruct (Hopen _ _ He) as (n & Hin & ->). exists n. split; [by right|done].
  - intros [= <-]. exists [], name, names. split_and!; try done.
    + by intros n ?%elem_of_nil.
    + intros path o He. inv_elem He. injection He as -> ->.
      exists name. split; [by left|done].
Qed.

Lemma readable_collected s :
  present_names s ≠ [] →
  (∀ name, name ∈ png_files → present s name →
     is_Some (image_at s (in_iconset name))) →
  (∀ img, image_at s (in_iconset "icon_256x256.png") = Some img →
     load_error img = None) →
  ∃ img images, collected s = Ret (img :: images).
Proof.
  intros Hne Hall Hload.
  pose proof (loop_images_returns _ Hall) as Hl.
  destruct (collected_eq _ _ Hl) as [Himgs Hc].
  destruct (image_at s (in_iconset "icon_256x256.png")) as [i256|].
  - rewrite (Hload i256 eq_refl) in Hc. rewrite Hc. unfold list_insert_at.
    destruct (found s png_files) as [|a [|b l]]; simpl; eauto.
  - destruct Hc as [_ ->]. destruct (found s png_files) as [|a l]; [|eauto].
    apply Forall2_nil_inv_r in Himgs. done.
Qed.

(** X4. An expected file that is there but does not open as an image (its
    path is a directory, or Pillow returns no image for its contents) ends
    the run at the first such file in the order of [png_files], with the
    exception [Image.open] raises for that file: [IsADirectoryError] for a
    directory, otherwise what Pillow raises for the contents.  The exit
    status is 1, the files after it are never opened, nothing is resized,
    [os.makedirs] and [save] are never called, and the file system is as it
    was. *)
Theorem unreadable_file_aborts s name :
  isdir s iconset_dir = true →
  name ∈ png_files →
  present s name →
  image_at s (in_iconset name) = None →
  ∃ before bad after,
    png_files = before ++ bad :: after ∧
    (∀ n, n ∈ before → present s n → is_Some (image_at s (in_iconset n))) ∧
    present s bad ∧
    image_at s (in_iconset bad) = None ∧
    ((in_iconset bad ∈ dirs s ∧
      open_error s (in_iconset bad) = IsADirectoryError) ∨
     (∃ data, (in_iconset bad ∉ dirs s) ∧
              files s !! in_iconset bad = Some data ∧
              image_header data = None ∧
              open_error s (in_iconset bad) = open_exception data)) ∧
    outcome (main s) = Raise (open_error s (in_iconset bad)) ∧
    exit_status (outcome (main s)) = 1 ∧
    final (main s) = s ∧
    (∀ ev, ev ∈ trace (main s) → is_write ev = false ∧ is_resize ev = false) ∧
    (∀ path o, ImageOpen path o ∈ trace (main s) →
       ∃ n, n ∈ before ++ [bad] ∧ path = in_iconset n).
Proof.
  intros Hd%isdir_true Hin Hp Hnone.
  destruct (collect_spec png_files [] s) as (_ & Hq & Ho).
  destruct (gather_spec s) as (_ & _ & Hs). unfold loop_images in Hs.
  destruct (outcome (collect png_files [] s)) as [l| |e] eqn:Eo; [|done|].
  - destruct Ho as (_ & _ & Hall). destruct (Hall _ Hin Hp) as [? ?]. congruence.
  - destruct (collect_raise_first _ _ _ _ Eo)
      as (before & bad & after & Hsplit & Hbefore & Hbp & Hbnone & -> & Hopen).
    destruct Hs as [Hg _].
    exists before, bad, after.
    rewrite (main_iconset _ Hd), (bind_Raise _ _ _ _ _ _ Hg).
    cbn [outcome final trace exit_status]. split_and!; try done.
    + by apply open_error_present.
    + intros ev Hev. by apply (elem_of_quiet _ _ _ Hq).
Qed.

Lemma write_ico_resources_taken img images s :
  "resources" ∉ dirs s → is_Some (files s !! "resources") →
  write_ico (img :: images) s =
  Run (Raise FileExistsError) s [Makedirs "resources" false].
Proof.
  intros Hd Hf. unfold write_ico.
  rewrite (bind_Ret_nil _ _ s tt s) by done.
  by rewrite (bind_Raise _ _ _ _ _ _ (os_makedirs_taken _ _ Hd Hf)).
Qed.

(** X5. When the iconset is readable (every expected file that is present
    opens, and icon_256x256.png, if present, decodes for the resize) and
    holds at least one expected file, but the name resources is taken by a
    regular file, [os.makedirs] raises [FileExistsError]: exit status 1,
    [save] is never called and the file system is as it was. *)
Theorem resources_taken_aborts s :
  isdir s iconset_dir = true →
  present_names s ≠ [] →
  (∀ name, name ∈ png_files → present s name →
     is_Some (image_at s (in_iconset name))) →
  (∀ img, image_at s (in_iconset "icon_256x256.png") = Some img →
     load_error img = None) →
  isdir s "resources" = false →
  is_Some (files s !! "resources") →
  outcome (main s) = Raise FileExistsError ∧
  exit_status (outcome (main s)) = 1 ∧
  final (main s) = s ∧
  Makedirs "resources" false ∈ trace (main s) ∧
  (∀ path req ok, ImageSave path req ok ∉ trace (main s)).
Proof.
  intros Hd%isdir_true Hne Hall Hload Hres%isdir_false Hfile.
  destruct (readable_collected _ Hne Hall Hload) as (img & images & Hc).
  assert (main s =
          Run (Raise FileExistsError) s
              (trace (gather s) ++ [Makedirs "resources" false])) as Hm.
  { rewrite (main_iconset _ Hd), bind_run. fold (collected s). rewrite Hc.
    rewrite gather_final.
    rewrite (bind_Raise _ _ _ _ _ _ (write_ico_resources_taken _ _ _ Hres Hfile)).
    done. }
  rewrite Hm. cbn [outcome final trace exit_status]. split_and!; try done.
  - apply elem_of_app. right. by left.
  - intros path req ok [He|He]%elem_of_app; [by apply gather_quiet in He|].
    inv_elem He.
Qed.
End early_failures.

Lemma unreadable_file_aborts_witness :
  image_at (H := Demo.pillow) Cases.corrupt (in_iconset "icon_128x128.png") = None ∧
  ∃ bad,
    outcome (main (H := Demo.pillow) Cases.corrupt)
      = Raise (open_error (H := Demo.pillow) Cases.corrupt (in_iconset bad)) ∧
    open_error (H := Demo.pillow) Cases.corrupt (in_iconset bad) = IsADirectoryError ∧
    final (main (H := Demo.pillow) Cases.corrupt) = Cases.corrupt.
Proof.
  assert (isdir Cases.corrupt iconset_dir = true) as Hd by (vm_compute; reflexivity).
  assert ("icon_128x128.png" ∈ png_files) as Hin by (do 3 right; by left).
  assert (present Cases.corrupt "icon_128x128.png") as Hp by (vm_compute; reflexivity).
  assert (image_at (H := Demo.pillow) Cases.corrupt (in_iconset "icon_128x128.png") = None)
    as Hnone by (vm_compute; reflexivity).
  destruct (unreadable_file_aborts (H := Demo.pillow) _ _ Hd Hin Hp Hnone)
    as (before & bad & after & _ & _ & _ & _ & _ & Ho & _ & Hf & _).
  assert (outcome (main (H := Demo.pillow) Cases.corrupt) = Raise IsADirectoryError)
    as Hout by (vm_compute; reflexivity).
  split; [exact Hnone|]. exists bad. split_and!; [exact Ho| |exact Hf].
  rewrite Hout in Ho. by injection Ho as <-.
Defined.

Lemma resources_taken_aborts_witness :
  is_Some (files Cases.resources_taken !! "resources") ∧
  outcome (main (H := Demo.pillow) Cases.resources_taken) = Raise FileExistsError ∧
  final (main (H := Demo.pillow) Cases.resources_taken) = Cases.resources_taken.
Proof.
  assert (isdir Cases.resources_taken iconset_dir = true) as Hd
    by (vm_compute; reflexivity).
  assert (present_names Cases.resources_taken ≠ []) as Hne
    by (vm_compute; discriminate).
  assert (∀ name, name ∈ png_files → present Cases.resources_taken name →
            is_Some (image_at (H := Demo.pillow) Cases.resources_taken
                       (in_iconset name))) as Hall.
  { intros name Hin Hp. unfold png_files in Hin.
    repeat (apply elem_of_cons in Hin as [->|Hin];
            [first [by vm_compute in Hp | vm_compute; by eexists]|]).
    by apply elem_of_nil in Hin. }
  assert (∀ img, image_at (H := Demo.pillow) Cases.resources_taken
                     (in_iconset "icon_256x256.png") = Some img →
                 load_error (H := Demo.pillow) img = None) as Hload
    by (intros img Himg; vm_compute in Himg; discriminate).
  assert (isdir Cases.resources_taken "resources" = false) as Hres
    by (vm_compute; reflexivity).
  assert (is_Some (files Cases.resources_taken !! "resources")) as Hfile
    by (vm_compute; by eexists).
  destruct (resources_taken_aborts (H := Demo.pillow) _ Hd Hne Hall Hload Hres Hfile)
    as (Ho & _ & Hf & _).
  exact (conj Hfile (conj Ho Hf)).
Defined.

(** ** What is printed, what is opened *)

Lemma count_events_app p t1 t2 :
  count_events p (t1 ++ t2) = (count_events p t1 + count_events p t2)%nat.
Proof. unfold count_events. by rewrite List.filter_app, length_app. Qed.

Lemma warning_is_not_an_error name text :
  Print stderr text = warning name →
  text ≠ "Error: Failed to create " +:+ output_ico.
Proof. intros [= ->]. discriminate. Qed.

Section messages.
Context `{Pillow}.

Lemma collect_stderr names : ∀ images s text,
  Print stderr text ∈ trace (collect names images s) →
  ∃ name, name ∈ names ∧ ¬ present s name ∧ Print stderr text = warning name.
Proof.
  induction names as [|name names IH]; intros images s text.
  - rewrite collect_nil. cbn [trace]. by intros ?%elem_of_nil.
  - rewrite collect_cons, bind_run.
    assert (∀ imgs, Print stderr text ∈ trace (collect names imgs s) →
              ∃ n, n ∈ name :: names ∧ ¬ present s n ∧
                   Print stderr text = warning n) as IH'.
    { intros imgs (n & ? & ? & ?)%IH. exists n. split_and!; [by right|done..]. }
    destruct (collect_one_cases images name s)
      as [[Hn ->]|[(img & Himg & Hp & ->)|(Hp & Himg & ->)]];
      cbn [outcome final trace].
    + intros [He|He]%elem_of_app; [|by eapply IH'].
      inv_elem He. exists name. split_and!; [by left|done..].
    + intros [He|He]%elem_of_app; [|by eapply IH']. inv_elem He.
    + intros He. inv_elem He.
Qed.

Lemma gather_stderr s text :
  Print stderr text ∈ trace (gather s) →
  ∃ name, name ∈ png_files ∧ ¬ present s name ∧
          Print stderr text = warning name.
Proof.
  unfold gather. rewrite bind_run.
  destruct (collect_spec png_files [] s) as (Hf & _ & _).
  destruct (outcome (collect png_files [] s)) as [imgs| |e];
    cbn [trace]; try apply collect_stderr.
  intros [He|He]%elem_of_app; [by eapply collect_stderr|].
  rewrite Hf, generate_48_eq in He.
  destruct (exists_path s (in_iconset "icon_256x256.png"));
    [|cbn [trace] in He; inv_elem He].
  destruct (image_at s (in_iconset "icon_256x256.png")) as [img|];
    [destruct (load_error img)|]; cbn [trace] in He; inv_elem He.
Qed.

(** X6. Everything [main] prints to standard error is the directory error
    (when phraims.iconset is no directory), the warning for an expected file
    that is missing, or the no-images error (when nothing was collected).
    The error of line 85, "Failed to create", is never printed: a [save]
    that returns has written the file. *)
Theorem stderr_messages s text :
  Print stderr text ∈ trace (main s) →
  text ≠ "Error: Failed to create " +:+ output_ico ∧
  ((isdir s iconset_dir = false ∧
    text = "Error: " +:+ iconset_dir +:+ " directory not found") ∨
   (isdir s iconset_dir = true ∧
    ∃ name, name ∈ png_files ∧ ¬ present s name ∧
            Print stderr text = warning name) ∨
   (isdir s iconset_dir = true ∧ collected s = Ret [] ∧
    text = "Error: No PNG images found to convert")).
Proof.
  intros He.
  assert (iconset_dir ∈ dirs s → Print stderr text ∈ trace (gather s) →
          text ≠ "Error: Failed to create " +:+ output_ico ∧
          ((isdir s iconset_dir = false ∧
            text = "Error: " +:+ iconset_dir +:+ " directory not found") ∨
           (isdir s iconset_dir = true ∧
            ∃ name, name ∈ png_files ∧ ¬ present s name ∧
                    Print stderr text = warning name) ∨
           (isdir s iconset_dir = true ∧ collected s = Ret [] ∧
            text = "Error: No PNG images found to convert"))) as Hg.
  { intros Hd%isdir_true (name & Hin & Hn & Hw)%gather_stderr. split.
    - by eapply warning_is_not_an_error.
    - right. left. eauto. }
  destruct (main_cases s) as [Hd|e Hd Hc|Hd Hc|images req e s' t Hd Hc Hr Hw
                             |images req bytes Hd Hc Hr Ho Henc];
    cbn [trace] in He.
  - inv_elem He. injection He as ->. split; [done|].
    left. split; [by apply isdir_false|done].
  - by apply Hg.
  - apply elem_of_app in He as [He|He]; [by apply Hg|].
    inv_elem He. injection He as ->. split; [done|].
    right. right. split_and!; try done. by apply isdir_true.
  - apply elem_of_app in He as [He|He]; [by apply Hg|].
    inversion Hw; subst; inv_elem He.
  - apply elem_of_app in He as [He|He]; [by apply Hg|].
    unfold success_report in He. simpl in He. inv_elem He.
Qed.

Lemma collect_counts names : ∀ images s l,
  outcome (collect names images s) = Ret l →
  count_events is_open (trace (collect names images s))
    = length (filter (present s) names) ∧
  count_events is_stderr (trace (collect names images s))
    = (length names - length (filter (present s) names))%nat.
Proof.
  induction names as [|name names IH]; intros images s l; [done|].
  rewrite collect_cons, bind_run, filter_cons.
  pose proof (length_filter (present s) names) as Hle.
  destruct (collect_one_cases images name s)
    as [[Hn ->]|[(img & Himg & Hp & ->)|(Hp & Himg & ->)]];
    cbn [outcome final trace]; [| |done].
  - intros [E1 E2]%IH. rewrite decide_False by done.
    rewrite !count_events_app, E1, E2. cbn. lia.
  - intros [E1 E2]%IH. rewrite decide_True by done.
    rewrite !count_events_app, E1, E2. cbn. lia.
Qed.

(** X7. In a run that saves, [Image.open] was called once for every expected
    file that is present and once more for icon_256x256.png when that one is
    present (it is opened a second time for the resize), and the number of
    messages on standard error is the number of expected files that are
    missing. *)
Theorem opens_and_warnings_count s req :
  saved (main s) req →
  count_events is_open (trace (main s))
    = (length (present_names s)
       + (if decide (present s "icon_256x256.png") then 1 else 0))%nat ∧
  count_events is_stderr (trace (main s))
    = (5 - length (present_names s))%nat.
Proof.
  intros Hs.
  destruct (main_saved _ _ Hs) as (_ & images & bytes & Hc & _ & _ & _ & ->).
  cbn [trace]. rewrite !count_events_app.
  destruct (collected_Ret_inv _ _ Hc) as [imgs Hl].
  destruct (collect_counts _ _ _ _ Hl) as [Hopen Herr].
  fold (present_names s) in Hopen, Herr.
  destruct (gather_spec s) as (_ & _ & Hg). rewrite Hl in Hg.
  destruct Hg as (_ & _ & _ & Hg).
  destruct (image_at s (in_iconset "icon_256x256.png")) as [i256|] eqn:H256.
  - destruct (load_error i256) as [e|];
      [unfold collected in Hc; by rewrite Hg in Hc|].
    rewrite Hg. cbn [trace]. rewrite !count_events_app, Hopen, Herr.
    rewrite decide_True by (by eapply image_at_present). cbn. lia.
  - destruct Hg as [Hn ->]. cbn [trace]. rewrite Hopen, Herr.
    rewrite decide_False by done. cbn. lia.
Qed.
End messages.

Lemma stderr_messages_witness :
  Print stderr "Error: No PNG images found to convert"
    ∈ trace (main (H := Demo.pillow) Demo.unrelated) ∧
  collected (H := Demo.pillow) Demo.unrelated = Ret [].
Proof.
  assert (Print stderr "Error: No PNG images found to convert"
            ∈ trace (main (H := Demo.pillow) Demo.unrelated)) as He
    by (vm_compute; find_event).
  destruct (stderr_messages (H := Demo.pillow) _ _ He)
    as (_ & [[Hd _]|[(_ & name & _ & _ & Hw)|(_ & Hc & _)]]).
  - vm_compute in Hd. discriminate.
  - unfold warning in Hw. injection Hw as Hw. vm_compute in Hw. discriminate.
  - exact (conj He Hc).
Defined.

Lemma opens_and_warnings_count_witness :
  saved (main (H := Demo.pillow) Demo.full) Demo.full_request ∧
  count_events is_open (trace (main (H := Demo.pillow) Demo.full)) = 6%nat ∧
  count_events is_stderr (trace (main (H := Demo.pillow) Demo.full)) = 0%nat.
Proof.
  assert (saved (main (H := Demo.pillow) Demo.full) Demo.full_request) as Hs
    by (unfold saved; vm_compute; find_event).
  destruct (opens_and_warnings_count (H := Demo.pillow) _ _ Hs) as [Ho He].
  exact (conj Hs (conj Ho He)).
Defined.

(** ** What is handed to the encoder *)

Lemma list_insert_at_perm {A} (i : nat) (x : A) (l : list A) :
  list_insert_at i x l ≡ₚ x :: l.
Proof.
  unfold list_insert_at. rewrite <- Permutation_middle.
  by rewrite take_drop.
Qed.

Lemma length_present_names s : (length (present_names s) ≤ 5)%nat.
Proof. apply (length_filter (present s) png_files). Qed.

Section requests.
Context `{Pillow}.

(** The list a saving run handed on at line 57. *)
Lemma saved_images s req :
  saved (main s) req →
  ∃ images imgs,
    collected s = Ret images ∧ save_request images = Some req ∧
    images_of_present s imgs ∧
    ((∃ i256, image_at s (in_iconset "icon_256x256.png") = Some i256 ∧
              present s "icon_256x256.png" ∧
              images = list_insert_at 2 (resized_48 i256) imgs) ∨
     ((¬ present s "icon_256x256.png") ∧ images = imgs)).
Proof.
  intros Hs.
  destruct (main_saved _ _ Hs) as (_ & images & bytes & Hc & Hr & _).
  destruct (collected_Ret_inv _ _ Hc) as [imgs Hl].
  destruct (collected_Ret_eq _ _ _ Hl Hc) as [Himgs Hc'].
  exists images, imgs. split_and!; try done.
  destruct (image_at s (in_iconset "icon_256x256.png")) as [i256|] eqn:H256.
  - left. exists i256. destruct Hc' as [_ ->].
    split_and!; try done. by eapply image_at_present.
  - right. by destruct Hc' as [Hn ->].
Qed.

(** X8. In a run that saves, [sizes] has one entry for every expected file
    that is present, plus one when icon_256x256.png is present: between one
    and six entries, as many as there are images written. *)
Theorem sizes_count s req :
  saved (main s) req →
  length (sizes req)
    = (length (present_names s)
       + (if decide (present s "icon_256x256.png") then 1 else 0))%nat ∧
  (1 ≤ length (sizes req) ≤ 6)%nat ∧
  length (written_images req) = length (sizes req).
Proof.
  intros (images & imgs & _ & Hr & Himgs & Hcase)%saved_images.
  pose proof (save_request_nil_inv _ _ Hr) as Hne.
  destruct (save_request_spec _ _ Hr) as [Hsz Hw].
  apply Forall2_length in Himgs.
  pose proof (length_present_names s) as Hfive.
  assert (length images
          = (length (present_names s)
             + (if decide (present s "icon_256x256.png") then 1 else 0))%nat)
    as Hlen.
  { destruct Hcase as [(i256 & _ & Hp & ->)|[Hn ->]].
    - rewrite decide_True by done. rewrite list_insert_at_perm. simpl. lia.
    - rewrite decide_False by done. lia. }
  rewrite Hsz, Hw, length_map, sorted_reverse_perm. split_and!; try done.
  - destruct images; [done|simpl; lia].
  - rewrite Hlen. case_decide; lia.
Qed.

(** The list a run handed on at line 57, for any call of [save]. *)
Lemma called_images s path req ok :
  ImageSave path req ok ∈ trace (main s) →
  path = output_ico ∧
  ∃ images imgs,
    collected s = Ret images ∧ save_request images = Some req ∧
    images_of_present s imgs ∧
    ((∃ i256, image_at s (in_iconset "icon_256x256.png") = Some i256 ∧
              present s "icon_256x256.png" ∧
              images = list_insert_at 2 (resized_48 i256) imgs) ∨
     ((¬ present s "icon_256x256.png") ∧ images = imgs)).
Proof.
  intros (-> & images & Hc & Hr)%main_save_call. split; [done|].
  destruct (collected_Ret_inv _ _ Hc) as [imgs Hl].
  destruct (collected_Ret_eq _ _ _ Hl Hc) as [Himgs Hc'].
  exists images, imgs. split_and!; try done.
  destruct (image_at s (in_iconset "icon_256x256.png")) as [i256|] eqn:H256.
  - left. exists i256. destruct Hc' as [_ ->].
    split_and!; try done. by eapply image_at_present.
  - right. by destruct Hc' as [Hn ->].
Qed.

Lemma not_saved_exit_one s :
  (∀ req, ¬ saved (main s) req) → exit_status (outcome (main s)) = 1.
Proof.
  intros Hno.
  destruct (main_cases s) as [Hd|e Hd Hc|Hd Hc|images req e s' t Hd Hc Hr Hw
                             |images req bytes Hd Hc Hr Ho He]; try done.
  destruct (Hno req). unfold saved. cbn [trace].
  apply elem_of_app. right. right. by left.
Qed.

(** X9. Whenever [main] calls [save], [append_images] is [None] exactly when
    a single expected file is present and it is not icon_256x256.png; in
    every other call it is a non-empty list, holding one image fewer than
    [sizes] has entries.  With a Pillow whose ICO writer raises on
    [append_images=None] (it computes [[im] + append_images]), such a call
    fails: from a directory holding a single expected file other than
    icon_256x256.png no icon is produced, and the exit status is 1. *)
Theorem append_images_none_iff s path req ok :
  ImageSave path req ok ∈ trace (main s) →
  (append_images req = None ↔
   ∃ name, present_names s = [name] ∧ name ≠ "icon_256x256.png") ∧
  (∀ others, append_images req = Some others →
     others ≠ [] ∧ S (length others) = length (sizes req)) ∧
  ((∀ r, append_images r = None → ico_encode r = None) →
   append_images req = None →
   ok = false ∧
   (∀ req', ¬ saved (main s) req') ∧
   exit_status (outcome (main s)) = 1).
Proof.
  intros Hcall.
  pose proof Hcall as (-> & images & imgs & Hc & Hr & Himgs & Hcase)%called_images.
  assert (∀ req', saved (main s) req' → req' = req) as Honly.
  { intros req' (_ & images' & Hc' & Hr')%main_save_call.
    rewrite Hc in Hc'. injection Hc' as <-. rewrite Hr in Hr'. by injection Hr'. }
  assert ((∀ r, append_images r = None → ico_encode r = None) →
          append_images req = None →
          ok = false ∧ (∀ req', ¬ saved (main s) req') ∧
          exit_status (outcome (main s)) = 1) as Hstrict.
  { intros Hrej Hnone.
    assert (∀ req', ¬ saved (main s) req') as Hno.
    { intros req' Hs. pose proof (Honly _ Hs) as ->.
      destruct (main_saved _ _ Hs) as (_ & ? & bytes & _ & _ & _ & He & _).
      rewrite (Hrej _ Hnone) in He. discriminate. }
    split_and!; [|done|by apply not_saved_exit_one].
    destruct ok; [|done]. by destruct (Hno req). }
  clear Hcall Honly.
  pose proof (save_request_nil_inv _ _ Hr) as Hne.
  destruct images as [|img images]; [done|].
  destruct (save_request_cons img images) as (first & others & Hsort & Hr').
  rewrite Hr' in Hr. injection Hr as <-. clear Hr'.
  cbn [append_images sizes] in *.
  assert (length (first :: others) = length (img :: images)) as Hlen
    by (by rewrite <- Hsort, sorted_reverse_perm).
  apply Forall2_length in Himgs.
  assert ("icon_256x256.png" ∈ png_files) as H256in by (do 4 right; by left).
  split_and!; [| |done].
  - clear Hstrict. case_bool_decide as Hmany; split; try done.
    + intros (name & Hone & Hname). exfalso.
      destruct Hcase as [(i256 & _ & Hp & Hi)|[Hn Hi]].
      * assert ("icon_256x256.png" ∈ present_names s) as Hin
          by (by apply elem_of_present_names).
        rewrite Hone in Hin. apply list_elem_of_singleton in Hin. done.
      * rewrite Hone, <- Hi in Himgs. simpl in *. lia.
    + intros _.
      destruct Hcase as [(i256 & _ & Hp & Hi)|[Hn Hi]].
      * exfalso. apply (f_equal length) in Hi.
        rewrite list_insert_at_perm in Hi.
        assert ("icon_256x256.png" ∈ present_names s) as Hin
          by (by apply elem_of_present_names).
        destruct (present_names s); [by apply elem_of_nil in Hin|].
        simpl in *. lia.
      * rewrite <- Hi in Himgs.
        destruct (present_names s) as [|name [|? ?]] eqn:Hnames;
          simpl in *; try lia.
        exists name. split; [done|]. intros ->. apply Hn.
        assert ("icon_256x256.png" ∈ present_names s) as Hin
          by (rewrite Hnames; by left).
        by apply elem_of_present_names in Hin as [_ ?].
  - clear Hstrict. intros others'. case_bool_decide as Hmany; [|done].
    intros [= <-]. simpl. rewrite length_map. split.
    + intros ->. simpl in Hmany. lia.
    + simpl in *. lia.
Qed.

(** X10. In a run that saves, no image is lost and none is written twice:
    the images handed to the encoder are, up to order, the opened images of
    the present expected files, together with the 48x48 made from
    icon_256x256.png when that file is present. *)
Theorem every_image_is_written s req :
  saved (main s) req →
  ∃ imgs,
    images_of_present s imgs ∧
    match image_at s (in_iconset "icon_256x256.png") with
    | Some i256 => written_images req ≡ₚ resized_48 i256 :: imgs
    | None => written_images req ≡ₚ imgs
    end.
Proof.
  intros (images & imgs & _ & Hr & Himgs & Hcase)%saved_images.
  destruct (save_request_spec _ _ Hr) as [_ ->].
  exists imgs. split; [done|].
  destruct Hcase as [(i256 & -> & _ & ->)|[Hn ->]].
  - rewrite sorted_reverse_perm. apply list_insert_at_perm.
  - rewrite (image_at_missing _ _ Hn). apply sorted_reverse_perm.
Qed.

Lemma image_at_Opened s path img :
  image_at s path = Some img → ∃ data, img = Opened data (img_size img).
Proof.
  unfold image_at. case_bool_decide; [done|].
  destruct (files s !! path) as [data|]; [|done]. simpl.
  destruct (image_header data) as [sz|]; [|done]. simpl.
  intros [= <-]. by exists data.
Qed.

(** X11. When the five files have the resolutions the comments of lines
    24-28 give them, a run that saves passes as [sizes] the six resolutions
    the docstring asks for, 16, 32, 48, 64, 128 and 256, and writes the
    images from the largest to the smallest, the 256x256 image first. *)
Theorem nominal_iconset_order s req :
  Forall2 (λ name sz, img_size <$> image_at s (in_iconset name) = Some sz)
          png_files nominal_sizes →
  saved (main s) req →
  sizes req = [(16, 16); (32, 32); (48, 48); (64, 64); (128, 128); (256, 256)] ∧
  map img_size (written_images req)
    = [(256, 256); (128, 128); (64, 64); (48, 48); (32, 32); (16, 16)] ∧
  image_at s (in_iconset "icon_256x256.png") = Some (primary req).
Proof.
  intros Hnom (images & imgs & _ & Hr & Himgs & Hcase)%saved_images.
  unfold png_files, nominal_sizes in Hnom.
  repeat match goal with
  | H : Forall2 _ (_ :: _) (_ :: _) |- _ =>
      apply Forall2_cons_1 in H as [?%fmap_Some H]
  end.
  repeat match goal with
  | H : ∃ img, image_at _ _ = Some img ∧ _ |- _ => destruct H as (? & ? & ?)
  end.
  assert (present_names s = png_files) as Hall.
  { unfold present_names, png_files.
    rewrite !filter_cons, filter_nil.
    rewrite !decide_True by (by eapply image_at_present). done. }
  unfold images_of_present in Himgs. rewrite Hall in Himgs.
  unfold png_files in Himgs.
  repeat match goal with
  | H : Forall2 _ (_ :: _) _ |- _ =>
      apply Forall2_cons_inv_l in H as (? & ? & ? & H & ->)
  end.
  apply Forall2_nil_inv_l in Himgs as ->.
  destruct Hcase as [(i256 & H256 & _ & ->)|[Hn _]];
    [|exfalso; apply Hn; by eapply image_at_present].
  repeat match goal with
  | H1 : image_at s ?p = Some ?a, H2 : image_at s ?p = Some ?b |- _ =>
      rewrite H1 in H2; injection H2 as ->
  end.
  repeat match goal with
  | H : image_at s _ = Some ?a |- _ =>
      lazymatch goal with
      | H' : (_, _) = img_size a |- _ =>
          let data := fresh "data" in
          let E := fresh "E" in
          pose proof (image_at_Opened _ _ _ H) as [data E];
          rewrite <- H' in E; rewrite E in *; clear E H'
      end
  end.
  vm_compute in Hr. injection Hr as <-. cbn [sizes primary written_images].
  split_and!; done.
Qed.
End requests.

(** X12. Among images of the same pixel area the order of collection is
    kept: the images of any one area are written in the order in which they
    were collected. *)
Theorem equal_areas_keep_their_order (images : list image) req (area : Z) :
  save_request images = Some req →
  filter (λ img, pixel_area img = area) (written_images req)
  = filter (λ img, pixel_area img = area) images.
Proof.
  intros [_ ->]%save_request_spec. apply sorted_reverse_stable.
Qed.

Lemma sizes_count_witness :
  saved (main (H := Demo.pillow) Demo.without_256) Demo.without_256_request ∧
  length (sizes Demo.without_256_request)
  = (length (present_names Demo.without_256)
     + (if decide (present Demo.without_256 "icon_256x256.png") then 1 else 0))%nat.
Proof.
  assert (saved (main (H := Demo.pillow) Demo.without_256) Demo.without_256_request)
    as Hs by (unfold saved; vm_compute; find_event).
  destruct (sizes_count (H := Demo.pillow) _ _ Hs) as (Hlen & _).
  exact (conj Hs Hlen).
Defined.

Lemma append_images_none_iff_witness :
  ImageSave output_ico Cases.only_32_request false
    ∈ trace (main (H := Demo.pillow) Cases.only_32) ∧
  append_images Cases.only_32_request = None ∧
  present_names Cases.only_32 = ["icon_32x32.png"] ∧
  exit_status (outcome (main (H := Demo.pillow) Cases.only_32)) = 1.
Proof.
  assert (ImageSave output_ico Cases.only_32_request false
            ∈ trace (main (H := Demo.pillow) Cases.only_32)) as Hcall
    by (vm_compute; find_event).
  assert (present_names Cases.only_32 = ["icon_32x32.png"]) as Hone
    by (vm_compute; reflexivity).
  destruct (append_images_none_iff (H := Demo.pillow) _ _ _ _ Hcall)
    as ([_ Hnone] & _ & Hstrict).
  assert (append_images Cases.only_32_request = None) as Happ.
  { apply Hnone. exists "icon_32x32.png". split; [exact Hone|discriminate]. }
  assert (∀ r, append_images r = None → ico_encode (Pillow := Demo.pillow) r = None)
    as Hrej by (intros r Hr; simpl; by rewrite Hr).
  destruct (Hstrict Hrej Happ) as (_ & _ & Hexit).
  exact (conj Hcall (conj Happ (conj Hone Hexit))).
Defined.

Lemma every_image_is_written_witness :
  saved (main (H := Demo.pillow) Demo.only_256) Demo.only_256_request ∧
  written_images Demo.only_256_request
    ≡ₚ [resized_48 Demo.img256; Demo.img256].
Proof.
  assert (saved (main (H := Demo.pillow) Demo.only_256) Demo.only_256_request)
    as Hs by (unfold saved; vm_compute; find_event).
  destruct (every_image_is_written (H := Demo.pillow) _ _ Hs) as (imgs & Himgs & Hw).
  assert (imgs = [Demo.img256]) as ->.
  { unfold images_of_present in Himgs.
    assert (present_names Demo.only_256 = ["icon_256x256.png"]) as Hp
      by (vm_compute; reflexivity).
    rewrite Hp in Himgs.
    apply Forall2_cons_inv_l in Himgs as (i & k & Hi & Hk & ->).
    apply Forall2_nil_inv_l in Hk as ->.
    vm_compute in Hi. injection Hi as <-. reflexivity. }
  assert (image_at (H := Demo.pillow) Demo.only_256 (in_iconset "icon_256x256.png")
          = Some Demo.img256) as H256 by (vm_compute; reflexivity).
  rewrite H256 in Hw. exact (conj Hs Hw).
Defined.

Lemma nominal_iconset_order_witness :
  saved (main (H := Demo.pillow) Demo.full) Demo.full_request ∧
  map img_size (written_images Demo.full_request)
  = [(256, 256); (128, 128); (64, 64); (48, 48); (32, 32); (16, 16)].
Proof.
  assert (Forall2 (λ name sz,
             img_size <$> image_at (H := Demo.pillow) Demo.full (in_iconset name)
             = Some sz) png_files nominal_sizes) as Hnom
    by (repeat constructor; vm_compute; reflexivity).
  assert (saved (main (H := Demo.pillow) Demo.full) Demo.full_request) as Hs
    by (unfold saved; vm_compute; find_event).
  destruct (nominal_iconset_order (H := Demo.pillow) _ _ Hnom Hs) as (_ & Hw & _).
  exact (conj Hs Hw).
Defined.

Lemma equal_areas_keep_their_order_witness :
  ∃ req,
    save_request [Cases.wide; Demo.img256; Cases.tall] = Some req ∧
    filter (λ img, pixel_area img = 1024) (written_images req)
    = [Cases.wide; Cases.tall].
Proof.
  destruct (save_request_is_Some [Cases.wide; Demo.img256; Cases.tall])
    as [req Hreq]; [discriminate|].
  exists req. split; [exact Hreq|].
  rewrite (equal_areas_keep_their_order _ _ 1024 Hreq). by vm_compute.
Defined.

(** ** A 256x256 file that opens but does not decode *)

Section undecodable.
Context `{Pillow}.

(** X13. [Image.open] is lazy: when every present expected file opens but
    the pixel data of icon_256x256.png does not decode, the loop completes
    and the run ends at the resize of line 53 with the decoder's exception:
    exit status 1, [os.makedirs] and [save] are never called, and the file
    system is as it was. *)
Theorem undecodable_256_aborts s imgs i256 e :
  isdir s iconset_dir = true →
  loop_images s = Ret imgs →
  image_at s (in_iconset "icon_256x256.png") = Some i256 →
  load_error i256 = Some e →
  outcome (main s) = Raise e ∧
  exit_status (outcome (main s)) = 1 ∧
  final (main s) = s ∧
  collected s = Raise e ∧
  ImageResize i256 (48, 48) LANCZOS false ∈ trace (main s) ∧
  (∀ ev, ev ∈ trace (main s) → is_write ev = false).
Proof.
  intros Hd%isdir_true Hl H256 Hload.
  destruct (collected_eq _ _ Hl) as [_ Hc]. rewrite H256, Hload in Hc.
  destruct (gather_spec s) as (_ & _ & Hs). rewrite Hl in Hs.
  destruct Hs as (_ & _ & _ & Hs). rewrite H256, Hload in Hs.
  rewrite (main_collected_raise _ _ Hd Hc).
  cbn [outcome final trace exit_status]. split_and!; try done.
  - rewrite Hs. cbn [trace]. apply elem_of_app. right. right. by left.
  - intros ev. apply gather_quiet.
Qed.
End undecodable.

Lemma undecodable_256_aborts_witness :
  load_error (H := Demo.pillow) (Opened [Byte.x00; Byte.x00; Byte.xff] (256, 256))
    = Some OSError ∧
  outcome (main (H := Demo.pillow) Cases.truncated_256) = Raise OSError ∧
  final (main (H := Demo.pillow) Cases.truncated_256) = Cases.truncated_256.
Proof.
  assert (isdir Cases.truncated_256 iconset_dir = true) as Hd
    by (vm_compute; reflexivity).
  assert (loop_images (H := Demo.pillow) Cases.truncated_256
          = Ret [Demo.img16; Opened [Byte.x00; Byte.x00; Byte.xff] (256, 256)])
    as Hl by (vm_compute; reflexivity).
  assert (image_at (H := Demo.pillow) Cases.truncated_256
            (in_iconset "icon_256x256.png")
          = Some (Opened [Byte.x00; Byte.x00; Byte.xff] (256, 256))) as H256
    by (vm_compute; reflexivity).
  assert (load_error (H := Demo.pillow)
            (Opened [Byte.x00; Byte.x00; Byte.xff] (256, 256)) = Some OSError)
    as Hload by (vm_compute; reflexivity).
  destruct (undecodable_256_aborts (H := Demo.pillow) _ _ _ _ Hd Hl H256 Hload)
    as (Ho & _ & Hf & _).
  exact (conj Hload (conj Ho Hf)).
Defined.
